(** * youtube_downloader: resolution selection, playlist aggregation and the
      confirmation gate of [ytd.py] and [ytdp.py]

    The two scripts are thin drivers around the yt-dlp library.  The library
    (metadata extraction, the actual download), the file system and the
    terminal are external collaborators; everything the scripts compute
    themselves is embedded below as executable Rocq functions, [ytd.py] in
    module [Ytd] and [ytdp.py] in module [Ytdp]. *)

From Stdlib Require Import ZArith List Lia Bool Ascii String Sorted.
From stdpp Require Import base option list strings pretty.

Open Scope string_scope.
Open Scope list_scope.
Open Scope Z_scope.

(** ** A small Python prelude *)

Module Py.

(** Exceptions carry their class and the text [str(e)] gives back. *)
Inductive exn_class :=
| ValueError | AttributeError | EOFError | OSError | DownloadError | Exception.

Record exn := Exn { class_of : exn_class; str : string }.

(** A computation either returns or raises. *)
Inductive result (A : Type) :=
| Ok (a : A)
| Raise (e : exn).
Arguments Ok {A} a.
Arguments Raise {A} e.

#[global] Instance result_ret : MRet result := fun A a => Ok a.
#[global] Instance result_bind : MBind result := fun A B f r =>
  match r with
  | Ok a => f a
  | Raise e => Raise e
  end.
#[global] Instance result_fmap : FMap result := fun A B f r =>
  match r with
  | Ok a => Ok (f a)
  | Raise e => Raise e
  end.

(** [try: body  except Exception as e: raise Exception(f"{prefix}{str(e)}")] *)
Definition reraise {A} (prefix : string) (body : result A) : result A :=
  match body with
  | Ok a => Ok a
  | Raise e => Raise (Exn Exception (prefix +:+ str e))
  end.

(** Truth value of an optional integer: [None] and [0] are false. *)
Definition truthy (v : option Z) : bool :=
  match v with
  | Some h => negb (h =? 0)
  | None => false
  end.

(** [s[:-1]]: the string without its last character ([''] stays ['']). *)
Fixpoint drop_last (s : string) : string :=
  match s with
  | EmptyString => EmptyString
  | String c EmptyString => EmptyString
  | String c rest => String c (drop_last rest)
  end.

(** [needle in s] on strings. *)
Fixpoint contains (needle s : string) : bool :=
  String.prefix needle s ||
  match s with
  | EmptyString => false
  | String _ rest => contains needle rest
  end.

(** [s.lower()] on the ASCII letters; other bytes are left alone, which
    cannot change whether the result is ['y'] or ['n']. *)
Definition lower_ascii (c : ascii) : ascii :=
  let n := nat_of_ascii c in
  if ((65 <=? n) && (n <=? 90))%nat then ascii_of_nat (n + 32) else c.

Fixpoint lower (s : string) : string :=
  match s with
  | EmptyString => EmptyString
  | String c rest => String (lower_ascii c) (lower rest)
  end.

(** [int(s)] for ASCII input: surrounding white space is stripped, then an
    optional sign and decimal digits, single underscores allowed between
    digits.  Anything else raises [ValueError]. *)
Definition is_space (c : ascii) : bool :=
  let n := nat_of_ascii c in
  ((n =? 32) || ((9 <=? n) && (n <=? 13)) || ((28 <=? n) && (n <=? 31)))%nat.

Definition digit_of (c : ascii) : option Z :=
  let n := nat_of_ascii c in
  if ((48 <=? n) && (n <=? 57))%nat then Some (Z.of_nat (n - 48)) else None.

Fixpoint lstrip (s : list ascii) : list ascii :=
  match s with
  | c :: rest => if is_space c then lstrip rest else s
  | [] => []
  end.

Definition strip (s : list ascii) : list ascii :=
  rev (lstrip (rev (lstrip s))).

(** [digits acc after_digit s]: [after_digit] tells whether the previous
    character was a digit, the only place an underscore may follow. *)
Fixpoint digits (acc : Z) (after_digit : bool) (s : list ascii) : option Z :=
  match s with
  | [] => if after_digit then Some acc else None
  | c :: rest =>
      match digit_of c with
      | Some d => digits (10 * acc + d) true rest
      | None =>
          if (Ascii.eqb c "_" && after_digit)%bool then digits acc false rest
          else None
      end
  end.

Definition int_literal (s : list ascii) : option Z :=
  match strip s with
  | "-"%char :: rest => Z.opp <$> digits 0 false rest
  | "+"%char :: rest => digits 0 false rest
  | rest => digits 0 false rest
  end.

Definition int (s : string) : result Z :=
  match int_literal (list_ascii_of_string s) with
  | Some z => Ok z
  | None =>
      Raise (Exn ValueError
               ("invalid literal for int() with base 10: '" +:+ s +:+ "'"))
  end.

(** [sorted(l)] on integers, by insertion. *)
Fixpoint insert_sorted (x : Z) (l : list Z) : list Z :=
  match l with
  | [] => [x]
  | y :: rest => if x <=? y then x :: l else y :: insert_sorted x rest
  end.

Definition sorted (l : list Z) : list Z := foldr insert_sorted [] l.

(** [sorted(set(l))]: the distinct elements in increasing order. *)
Definition sorted_set (l : list Z) : list Z := sorted (remove_dups l).

(** [str(l)] for a list of integers: ["[240, 360]"]. *)
Fixpoint join (sep : string) (l : list string) : string :=
  match l with
  | [] => ""
  | [s] => s
  | s :: rest => s +:+ sep +:+ join sep rest
  end.

Definition str_list (l : list Z) : string :=
  "[" +:+ join ", " (pretty <$> l) +:+ "]".

End Py.
Export Py.

(** ** The yt-dlp interface the scripts use *)

Module YtDlp.

(** One element of [info['formats']].  Every key the scripts read is
    optional; a key that is present holds a value of the type given here
    (a key bound to Python's [None] is not part of this data model). *)
Record format_dict := {
  height : option Z;
  vcodec : option string;
  acodec : option string;
  filesize : option Z
}.

(** One element of a flat playlist's [info['entries']]. *)
Module Entry.
Record t := { url : option string; title : option string }.
End Entry.

(** What [extract_info] gives back for a video or for a flat playlist. *)
Module Info.
Record t := {
  title : option string;
  duration : option Z;
  formats : option (list format_dict);
  entries : option (list (option Entry.t))
}.
End Info.

(** The options of the downloading [YoutubeDL] object that differ between
    the scripts or depend on their arguments.  The output template is kept
    as directory and file name; [ignoreerrors] and [verbose] are [false]
    where a script does not set them.  The tuning constants (fragment
    count, buffer and chunk sizes, retry counts, time-outs) are the same
    literals in both scripts and are left out. *)
Record ydl_opts := {
  outtmpl : string * string;
  format : string;
  merge_output_format : string;
  preferedformat : string;
  ignoreerrors : bool;
  verbose : bool
}.

(** The collaborators outside the scripts: the metadata provider
    [YoutubeDL.extract_info(url, download=False)] under the option
    [extract_flat], the download executor [YoutubeDL.download([url])],
    [Path.mkdir(parents=True, exist_ok=True)] and the clock read by
    [datetime.now().strftime("%Y%m%d_%H%M%S")]. *)
Record world := {
  extract_info : string -> bool -> result (option Info.t);
  download : ydl_opts -> string -> result unit;
  mkdir : string -> result unit;
  timestamp : string
}.

(** [f.get('vcodec') != 'none'] and [f.get('acodec') != 'none'] *)
Definition has_video (f : format_dict) : bool :=
  bool_decide (vcodec f ≠ Some "none").
Definition has_audio (f : format_dict) : bool :=
  bool_decide (acodec f ≠ Some "none").

(** The audio loop, the same text in both scripts:
[[
    best_audio_format = None
    for f in formats:
        if f.get('acodec') != 'none' and f.get('vcodec') == 'none':
            if (best_audio_format is None or
                f.get('filesize', 0) > best_audio_format.get('filesize', 0)):
                best_audio_format = f
]] *)
Definition audio_step (best : option format_dict) (f : format_dict)
  : option format_dict :=
  if has_audio f && negb (has_video f) then
    match best with
    | None => Some f
    | Some b =>
        if default 0 (filesize b) <? default 0 (filesize f) then Some f
        else best
    end
  else best.

Definition best_audio_format (formats : list format_dict)
  : option format_dict :=
  foldl audio_step None formats.

(** [sorted(set(f.get('height', 0) for f in formats if f.get('height')))] *)
Definition available_heights (formats : list format_dict) : list Z :=
  sorted_set
    ((fun f => default 0 (height f)) <$>
     filter (fun f => truthy (height f) = true) formats).

End YtDlp.
Export YtDlp.

(** ** Console and terminal input *)

Module Console.

(** What a [print] shows.  Lines built with the [.1f] float format are
    kept symbolic: the label and the integer the script divides. *)
Inductive display :=
| Text (s : string)
| Minutes (label : string) (seconds : Z)
| Megabytes (label : string) (bytes : Z).

Inductive event :=
| Print (d : display)
| Prompt (text : string)
| Mkdir (path : string)
| Download (opts : ydl_opts) (url : string).

(** The lines still to be read from standard input and what happened so
    far, oldest first. *)
Record console := { stdin : list string; trace : list event }.

Definition io (A : Type) : Type := console -> result A * console.

#[global] Instance io_ret : MRet io := fun A a c => (Ok a, c).
#[global] Instance io_bind : MBind io := fun A B f m c =>
  match m c with
  | (Ok a, c') => f a c'
  | (Raise e, c') => (Raise e, c')
  end.

Definition emit (e : event) : io unit :=
  fun c => (Ok (), {| stdin := stdin c; trace := trace c ++ [e] |}).

Definition print (d : display) : io unit := emit (Print d).

(** A pure computation that may raise, run inside [io]. *)
Definition lift {A} (r : result A) : io A := fun c => (r, c).

(** [input(prompt)]: shows the prompt, then reads one line; at end of
    input it raises [EOFError]. *)
Definition input (prompt : string) : io string :=
  fun c =>
    let shown := trace c ++ [Prompt prompt] in
    match stdin c with
    | line :: rest => (Ok line, {| stdin := rest; trace := shown |})
    | [] => (Raise (Exn EOFError "EOF when reading a line"),
             {| stdin := []; trace := shown |})
    end.

(** [try: body  except Exception as e: raise Exception(f"{prefix}{str(e)}")] *)
Definition reraise_io {A} (prefix : string) (body : io A) : io A :=
  fun c => let '(r, c') := body c in (reraise prefix r, c').

Definition nl : string := String (ascii_of_nat 10) "".
Definition ask : string :=
  nl +:+ "Do you want to continue with the download? (y/n): ".
Definition hint : string := "Please enter 'y' for yes or 'n' for no.".

(** The confirmation loop, the same text in both scripts:
[[
    while True:
        response = input("\nDo you want to continue with the download? (y/n): ").lower()
        if response in ['y', 'n']:
            break
        print("Please enter 'y' for yes or 'n' for no.")
]]
    Each turn consumes one line, so the loop is a recursion on the lines
    left; when they run out [input] raises. *)
Fixpoint confirm_loop (lines : list string) (shown : list event)
  : result string * console :=
  match lines with
  | [] => (Raise (Exn EOFError "EOF when reading a line"),
           {| stdin := []; trace := shown ++ [Prompt ask] |})
  | line :: rest =>
      let response := lower line in
      if bool_decide (response ∈ ["y"; "n"]) then
        (Ok response, {| stdin := rest; trace := shown ++ [Prompt ask] |})
      else
        confirm_loop rest (shown ++ [Prompt ask; Print (Text hint)])
  end.

Definition confirm : io string := fun c => confirm_loop (stdin c) (trace c).

End Console.
Export Console.

(** ** ytd.py *)

Module Ytd.

(** The dictionary [get_video_info] returns. *)
Record video_info := {
  title : string;
  duration : Z;
  size : Z;
  resolution : string
}.

(** Lines 34-40, the video loop:
[[
    best_video_format = None
    for f in formats:
        height = f.get('height', 0)
        if height and height <= target_height and f.get('vcodec') != 'none':
            if (best_video_format is None or
                height > best_video_format.get('height', 0)):
                best_video_format = f
]] *)
Definition video_step (target_height : Z) (best : option format_dict)
  (f : format_dict) : option format_dict :=
  let height := default 0 (height f) in
  if negb (height =? 0) && (height <=? target_height) && has_video f then
    match best with
    | None => Some f
    | Some b => if default 0 (YtDlp.height b) <? height then Some f else best
    end
  else best.

Definition best_video_format (target_height : Z) (formats : list format_dict)
  : option format_dict :=
  foldl (video_step target_height) None formats.

(** Line 53:
    [next((h for h in available_heights if h <= target_height), available_heights[0])],
    reached only with a non-empty list. *)
Definition suggest_height (target_height : Z) (available_heights : list Z)
  : option Z :=
  match available_heights with
  | [] => None
  | first :: _ =>
      Some (default first
              (List.find (fun h => h <=? target_height) available_heights))
  end.

(** Lines 28-70: what the script does with the formats once [info] is
    there. *)
Definition select (resolution : string) (target_height : Z)
  (info : Info.t) : result video_info :=
  let title := default "Unknown Title" (Info.title info) in
  let duration := default 0 (Info.duration info) in
  let formats := default [] (Info.formats info) in
  match formats with
  | [] => Raise (Exn ValueError "No formats available for this video")
  | _ =>
      let best_video := best_video_format target_height formats in
      let best_audio := best_audio_format formats in
      match best_video with
      | None =>
          let heights := available_heights formats in
          match suggest_height target_height heights with
          | Some suggest =>
              Raise (Exn ValueError
                       ("No format found for " +:+ resolution
                        +:+ ". Available resolutions: " +:+ str_list heights
                        +:+ ". Try " +:+ pretty suggest +:+ "p"))
          | None => Raise (Exn ValueError "No suitable video formats found")
          end
      | Some video =>
          let video_size := default 0 (filesize video) in
          let audio_size :=
            match best_audio with
            | Some audio => default 0 (filesize audio)
            | None => 0
            end in
          let total_size := video_size + audio_size in
          let actual_height := default 0 (height video) in
          Ok {| title := title;
                duration := duration;
                size := total_size;
                resolution := pretty actual_height +:+ "p" |}
      end
  end.

(** [get_video_info(url, resolution)]; [int(resolution[:-1])] is outside
    the [try], so its [ValueError] is not rewrapped. *)
Definition get_video_info (w : world) (url resolution : string)
  : result video_info :=
  target_height ← int (drop_last resolution);
  reraise "Failed to get video info: "
    (info ← extract_info w url false;
     match info with
     | None =>
         Raise (Exn ValueError
                  ("Could not fetch video information for " +:+ url))
     | Some info => select resolution target_height info
     end).

(** The options of the downloading object, lines 112-133. *)
Definition download_opts (w : world) (output_path resolution : string)
  : ydl_opts :=
  {| outtmpl := (output_path, "%(title)s_" +:+ timestamp w +:+ ".%(ext)s");
     format :=
       "bestvideo[height<=" +:+ drop_last resolution +:+ "]+bestaudio/best";
     merge_output_format := "mp4";
     preferedformat := "mp4";
     ignoreerrors := false;
     verbose := false |}.

(** [download_video(url, output_path, resolution)]. *)
Definition download_video (w : world) (url output_path resolution : string)
  : io unit :=
  reraise_io "Download failed: "
    (video_info ← lift (get_video_info w url resolution);
     print (Text (nl +:+ "Video Information:"));;
     print (Text ("Title: " +:+ title video_info));;
     print (Text ("Resolution: " +:+ Ytd.resolution video_info));;
     print (Minutes "Duration"
              (if 0 <? duration video_info then duration video_info else 0));;
     (if 0 <? size video_info
      then print (Megabytes "Estimated size" (size video_info))
      else print (Text "Estimated size: Unknown"));;
     response ← confirm;
     if String.eqb response "n" then
       print (Text "Download cancelled by user.")
     else
       emit (Mkdir output_path);;
       lift (mkdir w output_path);;
       let opts := download_opts w output_path resolution in
       print (Text (nl +:+ "Starting download..."));;
       emit (Download opts url);;
       lift (download w opts url);;
       print (Text (nl +:+ "Download completed! File saved in: "
                    +:+ output_path))).

End Ytd.

(** ** ytdp.py *)

Module Ytdp.

(** [find_closest_resolution(available_heights, target_height)]; [None] is
    Python's [None].  The last line indexes a list that is not empty there. *)
Definition find_closest_resolution (available_heights : list Z)
  (target_height : Z) : option Z :=
  match available_heights with
  | [] => None
  | _ =>
      let available_heights := sorted available_heights in
      match List.find (fun height => height <=? target_height)
              (rev available_heights) with
      | Some height => Some height
      | None => head available_heights
      end
  end.

(** The dictionary returned for a single video. *)
Record video_info := {
  title : string;
  duration : Z;
  size : Z;
  resolution : string;
  available_resolutions : list string
}.

(** One element of [skipped_videos]. *)
Module Skipped.
Record t := { title : string; url : string; reason : string }.
End Skipped.

(** The dictionary returned for a playlist. *)
Module Playlist.
Record t := {
  title : string;
  video_count : nat;
  videos : list video_info;
  skipped_videos : list Skipped.t;
  total_size : Z;
  total_duration : Z
}.
End Playlist.

(** The key [is_playlist] of the returned dictionary tells which of the
    two shapes it has. *)
Inductive info :=
| Video (v : video_info)
| Playlist (p : Playlist.t).

(** Lines 107-113, the video loop:
[[
    best_video_format = None
    for f in formats:
        height = f.get('height', 0)
        if height == target_height and f.get('vcodec') != 'none':
            if (best_video_format is None or
                f.get('filesize', 0) > best_video_format.get('filesize', 0)):
                best_video_format = f
]] *)
Definition video_step (target_height : Z) (best : option format_dict)
  (f : format_dict) : option format_dict :=
  let height := default 0 (height f) in
  if (height =? target_height) && has_video f then
    match best with
    | None => Some f
    | Some b =>
        if default 0 (filesize b) <? default 0 (filesize f) then Some f
        else best
    end
  else best.

Definition best_video_format (target_height : Z) (formats : list format_dict)
  : option format_dict :=
  foldl (video_step target_height) None formats.

(** Lines 89-134, the branch for a single video.  [best_video_format.get]
    on line 123 is a method call on [None] when the loop found nothing. *)
Definition select (target_height : Z) (info : Info.t) : result video_info :=
  let title := default "Unknown Title" (Info.title info) in
  let duration := default 0 (Info.duration info) in
  let formats := default [] (Info.formats info) in
  match formats with
  | [] => Raise (Exn ValueError "No formats available for this video")
  | _ =>
      let heights := available_heights formats in
      match heights with
      | [] =>
          Raise (Exn ValueError
                   "No video formats with height information found")
      | _ =>
          match find_closest_resolution heights target_height with
          | None => Raise (Exn ValueError "No suitable video formats found")
          | Some target_height =>
              let best_video := best_video_format target_height formats in
              let best_audio := best_audio_format formats in
              match best_video with
              | None =>
                  Raise (Exn AttributeError
                           "'NoneType' object has no attribute 'get'")
              | Some video =>
                  let video_size := default 0 (filesize video) in
                  let audio_size :=
                    match best_audio with
                    | Some audio => default 0 (filesize audio)
                    | None => 0
                    end in
                  let total_size := video_size + audio_size in
                  Ok {| title := title;
                        duration := duration;
                        size := total_size;
                        resolution := pretty target_height +:+ "p";
                        available_resolutions :=
                          (fun h => pretty h +:+ "p") <$> heights |}
              end
          end
      end
  end.

(** [get_video_info(url, resolution, False)], the call the playlist loop
    makes for every entry. *)
Definition get_single_info (w : world) (url resolution : string)
  : result video_info :=
  target_height ← int (drop_last resolution);
  reraise "Failed to get info: "
    (info ← extract_info w url false;
     match info with
     | None =>
         Raise (Exn ValueError ("Could not fetch information for " +:+ url))
     | Some info => select target_height info
     end).

(** The state of the playlist loop, lines 51-54. *)
Record tally := {
  videos_info : list video_info;
  total_size : Z;
  total_duration : Z;
  skipped_videos : list Skipped.t
}.

Definition tally0 : tally :=
  {| videos_info := []; total_size := 0; total_duration := 0;
     skipped_videos := [] |}.

(** One turn of the loop, lines 58-74 (the progress lines it prints are
    not part of the model):
[[
    if entry:
        video_url = entry.get('url')
        video_title = entry.get('title', 'Unknown Title')
        if video_url:
            try:
                video_info = get_video_info(video_url, resolution, False)
                videos_info.append(video_info)
                total_size += video_info['size']
                total_duration += video_info['duration']
            except Exception as e:
                skipped_videos.append({'title': video_title,
                                       'url': video_url, 'reason': str(e)})
]]
    An entry is a dictionary or [None]; a dictionary is false when it has
    no key, and then it has no [url] either. *)
Definition playlist_step (w : world) (resolution : string) (t : tally)
  (entry : option Entry.t) : tally :=
  match entry with
  | None => t
  | Some entry =>
      let video_url := Entry.url entry in
      let video_title := default "Unknown Title" (Entry.title entry) in
      match video_url with
      | Some video_url =>
          if String.eqb video_url "" then t
          else
            match get_single_info w video_url resolution with
            | Ok video_info =>
                {| videos_info := videos_info t ++ [video_info];
                   total_size := total_size t + size video_info;
                   total_duration := total_duration t + duration video_info;
                   skipped_videos := skipped_videos t |}
            | Raise e =>
                {| videos_info := videos_info t;
                   total_size := total_size t;
                   total_duration := total_duration t;
                   skipped_videos :=
                     skipped_videos t ++
                     [{| Skipped.title := video_title;
                         Skipped.url := video_url;
                         Skipped.reason := str e |}] |}
            end
      | None => t
      end
  end.

(** Lines 45-86, the branch for a playlist (the lines it prints while it
    analyses the entries are not part of the model). *)
Definition aggregate (w : world) (resolution : string) (info : Info.t)
  : result Playlist.t :=
  let playlist_title := default "Unknown Playlist" (Info.title info) in
  let entries := default [] (Info.entries info) in
  match entries with
  | [] => Raise (Exn ValueError "No videos found in playlist")
  | _ =>
      let t := foldl (playlist_step w resolution) tally0 entries in
      Ok {| Playlist.title := playlist_title;
            Playlist.video_count := length (videos_info t);
            Playlist.videos := videos_info t;
            Playlist.skipped_videos := skipped_videos t;
            Playlist.total_size := total_size t;
            Playlist.total_duration := total_duration t |}
  end.

(** [get_video_info(url, resolution, is_playlist)]. *)
Definition get_video_info (w : world) (url resolution : string)
  (is_playlist : bool) : result info :=
  target_height ← int (drop_last resolution);
  reraise "Failed to get info: "
    (info ← extract_info w url is_playlist;
     match info with
     | None =>
         Raise (Exn ValueError ("Could not fetch information for " +:+ url))
     | Some info =>
         if is_playlist then Playlist <$> aggregate w resolution info
         else Video <$> select target_height info
     end).

(** Line 144: ['playlist' in url or '&list=' in url]. *)
Definition is_playlist (url : string) : bool :=
  contains "playlist" url || contains "&list=" url.

(** The options of the downloading object, lines 193-215. *)
Definition download_opts (w : world) (output_path : string) : ydl_opts :=
  {| outtmpl := (output_path, "%(title)s_" +:+ timestamp w +:+ ".%(ext)s");
     format := "bestvideo[height<=144]+bestaudio/best";
     merge_output_format := "mp4";
     preferedformat := "mp4";
     ignoreerrors := true;
     verbose := true |}.

(** Lines 147-176: what is shown before the question. *)
Definition show (i : info) : io unit :=
  match i with
  | Playlist p =>
      print (Text (nl +:+ "Playlist Information:"));;
      print (Text ("Title: " +:+ Playlist.title p));;
      print (Text ("Available videos: "
                   +:+ pretty (Playlist.video_count p)));;
      print (Text ("Skipped videos: "
                   +:+ pretty (length (Playlist.skipped_videos p))));;
      print (Minutes "Total duration" (Playlist.total_duration p));;
      (if 0 <? Playlist.total_size p
       then print (Megabytes "Estimated total size" (Playlist.total_size p))
       else print (Text "Estimated total size: Unknown"));;
      match Playlist.skipped_videos p with
      | [] => mret ()
      | skipped =>
          print (Text (nl +:+ "Skipped Videos:"));;
          foldr (fun vid rest =>
                   print (Text ("- " +:+ Skipped.title vid +:+ ": "
                                +:+ Skipped.reason vid));; rest)
                (mret ()) skipped
      end
  | Video v =>
      print (Text (nl +:+ "Video Information:"));;
      print (Text ("Title: " +:+ title v));;
      print (Text ("Selected Resolution: " +:+ resolution v));;
      print (Text ("Available Resolutions: "
                   +:+ join ", " (available_resolutions v)));;
      print (Minutes "Duration" (if 0 <? duration v then duration v else 0));;
      (if 0 <? size v
       then print (Megabytes "Estimated size" (size v))
       else print (Text "Estimated size: Unknown"))
  end.

(** [download_video(url, output_path, resolution)]. *)
Definition download_video (w : world) (url output_path resolution : string)
  : io unit :=
  reraise_io "Download failed: "
    (let is_playlist := is_playlist url in
     info ← lift (get_video_info w url resolution is_playlist);
     show info;;
     response ← confirm;
     if String.eqb response "n" then
       print (Text "Download cancelled by user.")
     else
       emit (Mkdir output_path);;
       lift (mkdir w output_path);;
       let opts := download_opts w output_path in
       print (Text (nl +:+ "Starting download..."));;
       emit (Download opts url);;
       lift (download w opts url);;
       print (Text (nl +:+ "Download completed! Files saved in: "
                    +:+ output_path))).

End Ytdp.

(** ** The playlist loop read entry by entry

    These definitions are not taken from the source: they say, for one
    entry at a time and without any running state, what the aggregation is
    expected to do with it.  The loop of [Ytdp.aggregate] is compared with
    them below. *)

Module PlaylistSpec.





End PlaylistSpec.

(** ** The confirmation gate read as a whole

    Like [PlaylistSpec], these definitions are a reading aid and not a
    translation: they describe a run of the part both scripts share, from
    the question to the download, without the monad.  The scripts are
    compared with them below. *)

Module Gate.

(** The events that reach beyond the terminal. *)
Definition outward (e : event) : bool :=
  match e with
  | Mkdir _ | Download _ _ => true
  | Print _ | Prompt _ => false
  end.

(** A line that settles nothing: lower-cased it is neither ['y'] nor
    ['n']. *)
Definition undecided (line : string) : Prop := lower line ∉ ["y"; "n"].

(** What [n] undecided lines leave on the terminal. *)
Definition reprompts (n : nat) : list event :=
  concat (replicate n [Prompt ask; Print (Text hint)]).

Definition extend (c : console) (events : list event) : console :=
  {| stdin := stdin c; trace := trace c ++ events |}.

(** The handler around [download_video]. *)
Definition wrap (e : exn) : exn :=
  Exn Exception ("Download failed: " +:+ str e).

Definition starting : event := Print (Text (nl +:+ "Starting download...")).

(** What follows the answer of the confirmation loop. *)
Definition proceed (w : world) (opts : ydl_opts)
  (url output_path completed : string) (answer : result string * console)
  : result unit * console :=
  match answer with
  | (Raise e, c) => (Raise (wrap e), c)
  | (Ok response, c) =>
      if String.eqb response "n" then
        (Ok (), extend c [Print (Text "Download cancelled by user.")])
      else
        match mkdir w output_path with
        | Raise e => (Raise (wrap e), extend c [Mkdir output_path])
        | Ok _ =>
            match download w opts url with
            | Raise e =>
                (Raise (wrap e),
                 extend c [Mkdir output_path; starting; Download opts url])
            | Ok _ =>
                (Ok (),
                 extend c [Mkdir output_path; starting; Download opts url;
                           Print (Text completed)])
            end
        end
  end.

(** A list of events that stays on the terminal. *)
Definition quiet (events : list event) : Prop :=
  Forall (fun e => outward e = false) events.

(** What the gate promises of a run [run] of [download_video] whose
    metadata request succeeded; [opts] are the options of the download and
    [url], [output_path] the arguments of the script.  The lines read are
    those of [stdin c]; [pre] are the undecided lines before the one that
    decides. *)
Record gated (w : world) (opts : ydl_opts) (url output_path : string)
  (run : io unit) : Prop := {
  (* the answer is no: the run ends normally, nothing left the terminal *)
  on_no : ∀ c pre line post,
    stdin c = pre ++ line :: post → Forall undecided pre →
    lower line = "n" →
    ∃ shown, quiet shown
      ∧ run c = (Ok (), {| stdin := post; trace := trace c ++ shown |});
  (* the answer is yes: the directory is made and, if that went well, the
     download is called, once *)
  on_yes : ∀ c pre line post,
    stdin c = pre ++ line :: post → Forall undecided pre →
    lower line = "y" →
    ∃ shown, quiet shown
      ∧ match mkdir w output_path with
        | Raise e =>
            run c = (Raise (wrap e),
                     {| stdin := post;
                        trace := trace c ++ shown ++ [Mkdir output_path] |})
        | Ok _ =>
            ∃ tail, quiet tail
              ∧ (run c).1 = match download w opts url with
                            | Ok _ => Ok ()
                            | Raise e => Raise (wrap e)
                            end
              ∧ (run c).2
                = {| stdin := post;
                     trace := trace c ++ shown
                              ++ [Mkdir output_path; starting;
                                  Download opts url] ++ tail |}
        end;
  (* no line decides: the run fails at the end of the input, nothing left
     the terminal *)
  on_eof : ∀ c,
    Forall undecided (stdin c) →
    ∃ shown, quiet shown
      ∧ run c = (Raise (wrap (Exn EOFError "EOF when reading a line")),
                 {| stdin := []; trace := trace c ++ shown |});
  (* a download in the trace was preceded by a line that lower-cases to
     'y', the first line to decide *)
  never_before : ∀ c o u,
    Download o u ∈ trace (run c).2 →
    Download o u ∈ trace c
    ∨ ∃ pre line post,
        stdin c = pre ++ line :: post ∧ Forall undecided pre
        ∧ lower line = "y" ∧ o = opts ∧ u = url
}.

End Gate.

(** ** Worked inputs *)

Module Examples.

(** A video-only stream, an audio-only stream and a storyboard (an image
    track: it has a height but neither codec). *)
Definition video (h bytes : Z) : format_dict :=
  {| height := Some h; vcodec := Some "avc1"; acodec := Some "none";
     filesize := Some bytes |}.
Definition audio (bytes : Z) : format_dict :=
  {| height := Some 0; vcodec := Some "none"; acodec := Some "mp4a";
     filesize := Some bytes |}.
Definition storyboard (h : Z) : format_dict :=
  {| height := Some h; vcodec := Some "none"; acodec := Some "none";
     filesize := None |}.

Definition info_of (formats : list format_dict) : Info.t :=
  {| Info.title := Some "Clip"; Info.duration := Some 90;
     Info.formats := Some formats; Info.entries := None |}.

(** A world in which every URL is a video with the given formats and
    nothing fails. *)
Definition serving (formats : list format_dict) : world :=
  {| extract_info := fun _ _ => Ok (Some (info_of formats));
     download := fun _ _ => Ok ();
     mkdir := fun _ => Ok ();
     timestamp := "20240101_120000" |}.

(** The example of the specification: 1080p and 720p video, one audio
    stream. *)
Definition three_formats : list format_dict :=
  [video 1080 500000000; video 720 300000000; audio 20000000].

(** A storyboard below the target 240 and a real video stream above it. *)
Definition storyboard_below : list format_dict :=
  [storyboard 180; video 360 40000000].

(** Two storyboards and no video stream at all. *)
Definition storyboards_only : list format_dict :=
  [storyboard 90; storyboard 180].

(** A playlist of three entries: the first resolves, the second has an
    empty [url], the third cannot be fetched. *)
Definition entry (url title : string) : option Entry.t :=
  Some {| Entry.url := Some url; Entry.title := Some title |}.



End Examples.

(** ** The progress hooks and the command line *)

Module Hook.

(** [s.split(sep)] for a one-character separator: the pieces between the
    separators, at least one piece. *)
Fixpoint split (sep : ascii) (s : string) : list string :=
  match s with
  | EmptyString => [EmptyString]
  | String c rest =>
      if Ascii.eqb c sep then EmptyString :: split sep rest
      else
        match split sep rest with
        | piece :: pieces => String c piece :: pieces
        | [] => [String c EmptyString]
        end
  end.

(** [s.split('/')[-1]] *)
Definition last_component (s : string) : string :=
  default "" (last (split "/" s)).

(** The dictionary yt-dlp hands to a progress hook.  The byte counts and
    the speed are kept as integers; the script only tests them against 0
    and formats them.  As for the formats, a key is absent or holds a value
    of its type. *)
Record progress := {
  status : option string;
  downloaded_bytes : option Z;
  total_bytes : option Z;
  total_bytes_estimate : option Z;
  speed : option Z;
  filename : option string
}.

(** The line a hook prints, kept symbolic as the [.1f] formats are:
    [Percent file downloaded total speed] stands for
    ["\r[file] Progress: {downloaded/total*100:.1f}% | Speed: {speed/2**20:.1f}MB/s"]
    and [Amount file downloaded speed] for
    ["\r[file] Downloaded: {downloaded/2**20:.1f}MB | Speed: {speed/2**20:.1f}MB/s"];
    [ytd.py] prints no file name. *)
Inductive line :=
| Percent (file : option string) (downloaded total speed : Z)
| Amount (file : string) (downloaded speed : Z).

(** What a call of a hook does: it prints one line, prints nothing, or
    fails on the missing key [d['status']]. *)
Inductive outcome :=
| Prints (l : line)
| Silent
| KeyError (key : string).

(** [a or b] on integers. *)
Definition or_else (a b : Z) : Z := if a =? 0 then b else a.

(** [show_progress(d)] of [ytd.py], lines 143-153. *)
Definition ytd_show_progress (d : progress) : outcome :=
  match status d with
  | None => KeyError "status"
  | Some status =>
      if String.eqb status "downloading" then
        let downloaded := default 0 (downloaded_bytes d) in
        let total :=
          or_else (default 0 (total_bytes d))
                  (default 0 (total_bytes_estimate d)) in
        let speed := default 0 (speed d) in
        if 0 <? total then Prints (Percent None downloaded total speed)
        else Silent
      else Silent
  end.

(** [show_progress(d)] of [ytdp.py], lines 226-241. *)
Definition ytdp_show_progress (d : progress) : outcome :=
  match status d with
  | None => KeyError "status"
  | Some status =>
      if String.eqb status "downloading" then
        let downloaded := default 0 (downloaded_bytes d) in
        let total :=
          or_else (default 0 (total_bytes d))
                  (default 0 (total_bytes_estimate d)) in
        let speed := default 0 (speed d) in
        let filename := last_component (default "" (filename d)) in
        if 0 <? total then
          Prints (Percent (Some filename) downloaded total speed)
        else Prints (Amount filename downloaded speed)
      else Silent
  end.

End Hook.

Module Main.

(** Lines 157-164 of [ytd.py]. *)
Definition ytd_usage : list event :=
  Print ∘ Text <$>
  ["Usage: python ytd.py <video_url> <output_path> [resolution]";
   "Example: python ytd.py https://www.youtube.com/watch?v=xxx ~/Downloads 1080p";
   nl +:+ "Available resolutions:";
   "1080p - Full HD";
   "720p  - HD";
   "480p  - SD";
   "360p  - Low"].

(** Lines 245-254 of [ytdp.py]. *)
Definition ytdp_usage : list event :=
  Print ∘ Text <$>
  ["Usage: python ytd.py <video_or_playlist_url> <output_path> [resolution]";
   "Example: python ytd.py https://www.youtube.com/watch?v=xxx ~/Downloads 1080p";
   "Example: python ytd.py https://www.youtube.com/playlist?list=xxx ~/Downloads 720p";
   nl +:+ "Common resolutions:";
   "1080p - Full HD";
   "720p  - HD";
   "480p  - SD";
   "360p  - Low";
   "240p  - Lower";
   "144p  - Lowest"].

(** The block under [if __name__ == "__main__":], the same in both scripts
    but for the usage text and the [download_video] it calls; [argv] is
    [sys.argv], the script name first.  The result is the exit status of
    the process: 1 from [sys.exit(1)], 0 when the block runs to its end.
[[
    if len(sys.argv) < 3:
        print(...)
        sys.exit(1)
    video_url = sys.argv[1]
    output_path = sys.argv[2]
    resolution = sys.argv[3] if len(sys.argv) > 3 else "1080p"
    try:
        download_video(video_url, output_path, resolution)
    except Exception as e:
        print(f"Error occurred: {str(e)}")
]] *)
Definition run (usage : list event)
  (download_video : string → string → string → io unit)
  (argv : list string) (c : console) : Z * console :=
  match argv with
  | _ :: video_url :: output_path :: rest =>
      let resolution :=
        match rest with
        | resolution :: _ => resolution
        | [] => "1080p"
        end in
      match download_video video_url output_path resolution c with
      | (Ok _, c') => (0, c')
      | (Raise e, c') =>
          (0, Gate.extend c' [Print (Text ("Error occurred: " +:+ str e))])
      end
  | _ => (1, Gate.extend c usage)
  end.

Definition ytd_main (w : world) : list string → console → Z * console :=
  run ytd_usage (Ytd.download_video w).

Definition ytdp_main (w : world) : list string → console → Z * console :=
  run ytdp_usage (Ytdp.download_video w).

End Main.

(** * Properties *)

(** ** Sorting and searching *)

Section Sorting.

Implicit Types (x y h t : Z) (l s : list Z).

Lemma elem_of_insert_sorted x y l :
  y ∈ insert_sorted x l ↔ y = x ∨ y ∈ l.
Proof.
  induction l as [|z l IH]; simpl.
  - rewrite list_elem_of_singleton, elem_of_nil. tauto.
  - destruct (x <=? z).
    + rewrite !elem_of_cons. tauto.
    + rewrite !elem_of_cons, IH. tauto.
Qed.

Lemma elem_of_sorted y l : y ∈ sorted l ↔ y ∈ l.
Proof.
  unfold sorted. induction l as [|z l IH]; simpl; [done|].
  rewrite elem_of_insert_sorted, elem_of_cons, IH. tauto.
Qed.

Lemma insert_sorted_sorted x l :
  StronglySorted Z.le l → StronglySorted Z.le (insert_sorted x l).
Proof.
  induction 1 as [|z l Hl IH Hz]; simpl.
  - by repeat constructor.
  - destruct (Z.leb_spec x z) as [Hxz|Hxz].
    + constructor; [by constructor|].
      constructor; [done|].
      eapply Forall_impl; [exact Hz|]. simpl. intros; lia.
    + constructor; [done|].
      apply Forall_forall. intros y Hy.
      apply elem_of_insert_sorted in Hy as [->|Hy]; [lia|].
      by eapply Forall_forall in Hz.
Qed.

Lemma sorted_sorted l : StronglySorted Z.le (sorted l).
Proof.
  unfold sorted. induction l; simpl; [constructor|].
  by apply insert_sorted_sorted.
Qed.

Lemma insert_sorted_length x l :
  length (insert_sorted x l) = S (length l).
Proof.
  induction l as [|z l IH]; simpl; [done|].
  destruct (x <=? z); simpl; by rewrite ?IH.
Qed.

Lemma sorted_length l : length (sorted l) = length l.
Proof.
  unfold sorted. induction l; simpl; [done|].
  by rewrite insert_sorted_length, IHl.
Qed.

Lemma elem_of_sorted_set y l : y ∈ sorted_set l ↔ y ∈ l.
Proof. unfold sorted_set. by rewrite elem_of_sorted, elem_of_remove_dups. Qed.

(** The first element of an increasing list is its least one. *)
Lemma sorted_head_least s h :
  StronglySorted Z.le s → head s = Some h → ∀ x, x ∈ s → h <= x.
Proof.
  intros Hs Hh x Hx. destruct s as [|a s]; simplify_eq/=.
  apply StronglySorted_inv in Hs as [_ Hs].
  apply elem_of_cons in Hx as [->|Hx]; [lia|].
  by eapply Forall_forall in Hs.
Qed.

Lemma find_app {A} (p : A → bool) (l1 l2 : list A) :
  List.find p (l1 ++ l2) =
  match List.find p l1 with
  | Some a => Some a
  | None => List.find p l2
  end.
Proof.
  induction l1 as [|a l1 IH]; simpl; [done|]. by destruct (p a).
Qed.

(** Scanning an increasing list from its end for an element [<= t] finds
    the greatest such element, or nothing when all are above [t]. *)
Lemma find_rev_sorted t s :
  StronglySorted Z.le s →
  match List.find (fun h => h <=? t) (rev s) with
  | Some h => h ∈ s ∧ h <= t ∧ ∀ x, x ∈ s → x <= t → x <= h
  | None => ∀ x, x ∈ s → t < x
  end.
Proof.
  induction 1 as [|a s Hs IH Ha]; simpl.
  - intros x Hx. by apply elem_of_nil in Hx.
  - rewrite find_app. destruct (List.find _ (rev s)) as [h|].
    + destruct IH as (Hin & Hle & Hmax). split_and!.
      * by apply list_elem_of_further.
      * done.
      * intros x Hx Hxt. apply elem_of_cons in Hx as [->|Hx]; [|by auto].
        by eapply Forall_forall in Ha.
    + simpl. destruct (Z.leb_spec a t) as [Hat|Hat].
      * split_and!; [apply list_elem_of_here|done|].
        intros x Hx Hxt. apply elem_of_cons in Hx as [->|Hx]; [lia|].
        apply IH in Hx. lia.
      * intros x Hx. apply elem_of_cons in Hx as [->|Hx]; [lia|by auto].
Qed.

End Sorting.

(** ** [find_closest_resolution] *)

(** On a non-empty list the function returns one of its elements: the
    greatest one that is [<= target_height] when there is one, the least
    element of the list otherwise. *)
Lemma find_closest_resolution_spec (available_heights : list Z)
  (target_height : Z) :
  available_heights ≠ [] →
  ∃ chosen,
    Ytdp.find_closest_resolution available_heights target_height = Some chosen
    ∧ chosen ∈ available_heights
    ∧ ((∃ h, h ∈ available_heights ∧ h <= target_height) →
       chosen <= target_height
       ∧ ∀ h, h ∈ available_heights → h <= target_height → h <= chosen)
    ∧ ((∀ h, h ∈ available_heights → target_height < h) →
       ∀ h, h ∈ available_heights → chosen <= h).
Proof.
  intros Hne. unfold Ytdp.find_closest_resolution.
  destruct available_heights as [|a l]; [done|]. clear Hne.
  set (hs := a :: l).
  pose proof (find_rev_sorted target_height (sorted hs) (sorted_sorted hs))
    as Hfind.
  destruct (List.find _ (rev (sorted hs))) as [h|].
  - destruct Hfind as (Hin & Hle & Hmax). exists h. split_and!.
    + done.
    + by apply elem_of_sorted.
    + intros _. split; [done|]. intros x Hx. apply Hmax.
      by apply elem_of_sorted.
    + intros Hall. apply elem_of_sorted, Hall in Hin. lia.
  - destruct (head (sorted hs)) as [h|] eqn:Hhead.
    + exists h. split_and!.
      * done.
      * by apply elem_of_sorted, head_Some_elem_of.
      * intros (x & Hx & Hxt). apply elem_of_sorted, Hfind in Hx. lia.
      * intros _ x Hx.
        apply (sorted_head_least (sorted hs)); auto using sorted_sorted.
        by apply elem_of_sorted.
    + apply head_None in Hhead.
      apply (f_equal length) in Hhead. by rewrite sorted_length in Hhead.
Qed.

(** ** Loops that keep the first best element *)

(** The three selection loops share one shape: an element passing a test
    replaces the current choice only when its key is strictly greater. *)
Section FirstMaximum.

Context {A : Type} (ok : A → bool) (key : A → Z).
Context (step : option A → A → option A).
Hypothesis step_eq : ∀ best f,
  step best f =
  if ok f then
    match best with
    | None => Some f
    | Some b => if key b <? key f then Some f else best
    end
  else best.

(** The loop ends on the first element with the greatest key among those
    passing the test, and on [None] exactly when none passes. *)
Lemma first_maximum (l : list A) :
  match foldl step None l with
  | Some f =>
      ∃ pre post, l = pre ++ f :: post ∧ ok f = true
        ∧ (∀ g, g ∈ pre → ok g = true → key g < key f)
        ∧ (∀ g, g ∈ post → ok g = true → key g <= key f)
  | None => ∀ g, g ∈ l → ok g = false
  end.
Proof.
  induction l as [|x l IH] using rev_ind; simpl.
  - intros g Hg. by apply elem_of_nil in Hg.
  - rewrite foldl_snoc, step_eq.
    destruct (foldl step None l) as [b|], (ok x) eqn:Hx.
    + destruct IH as (pre & post & -> & Hb & Hpre & Hpost).
      destruct (Z.ltb_spec (key b) (key x)) as [Hlt|Hge].
      * exists (pre ++ b :: post), []. split_and!; [done..| |].
        -- intros g Hg Hok.
           apply elem_of_app in Hg as [Hg|Hg].
           { specialize (Hpre g Hg Hok). lia. }
           apply elem_of_cons in Hg as [->|Hg]; [done|].
           specialize (Hpost g Hg Hok). lia.
        -- intros g Hg. by apply elem_of_nil in Hg.
      * exists pre, (post ++ [x]). split_and!; [by rewrite <-app_assoc|done..|].
        intros g Hg Hok. apply elem_of_app in Hg as [Hg|Hg]; [by auto|].
        apply list_elem_of_singleton in Hg as ->. lia.
    + destruct IH as (pre & post & -> & Hb & Hpre & Hpost).
      exists pre, (post ++ [x]). split_and!; [by rewrite <-app_assoc|done..|].
      intros g Hg Hok. apply elem_of_app in Hg as [Hg|Hg]; [by auto|].
      apply list_elem_of_singleton in Hg as ->. congruence.
    + exists l, []. split_and!; [done..| |].
      * intros g Hg Hok. apply IH in Hg. congruence.
      * intros g Hg. by apply elem_of_nil in Hg.
    + intros g Hg. apply elem_of_app in Hg as [Hg|Hg]; [by auto|].
      by apply list_elem_of_singleton in Hg as ->.
Qed.

End FirstMaximum.

(** ** The video loop of ytd.py *)

(** C2.  For every format list and target height, the format the loop of
    [ytd.py] ends on is video-capable, has a height that is present, not
    zero and at most the target, no video-capable format has a greater such
    height, and no earlier video-capable format has the same height (the
    first one encountered is kept).  The loop ends on [None] exactly when no
    video-capable format has such a height. *)
Theorem ytd_best_video_format_largest_first (target_height : Z)
  (formats : list format_dict) :
  match Ytd.best_video_format target_height formats with
  | Some f =>
      ∃ pre post h,
        formats = pre ++ f :: post
        ∧ height f = Some h ∧ h ≠ 0 ∧ h <= target_height
        ∧ has_video f = true
        ∧ (∀ g k, g ∈ formats → has_video g = true → height g = Some k →
                  k ≠ 0 → k <= target_height → k <= h)
        ∧ (∀ g, g ∈ pre → has_video g = true → height g ≠ Some h)
  | None =>
      ∀ g k, g ∈ formats → has_video g = true → height g = Some k →
             k ≠ 0 → ¬ k <= target_height
  end.
Proof.
  unfold Ytd.best_video_format.
  pose proof (first_maximum
    (fun f => negb (default 0 (height f) =? 0)
              && (default 0 (height f) <=? target_height) && has_video f)
    (fun f => default 0 (height f))
    (Ytd.video_step target_height) (fun _ _ => eq_refl) formats) as Hloop.
  destruct (foldl _ None formats) as [f|].
  - destruct Hloop as (pre & post & -> & Hok & Hpre & Hpost).
    apply andb_true_iff in Hok as [Hok Hvideo].
    apply andb_true_iff in Hok as [Hnz Hle].
    apply negb_true_iff, Z.eqb_neq in Hnz. apply Z.leb_le in Hle.
    destruct (height f) as [h|] eqn:Hh; simpl in *; [|done].
    exists pre, post, h. split_and!; [done..| |].
    + intros g k Hg Hgv Hgh Hk Hkt.
      assert (negb (default 0 (height g) =? 0)
              && (default 0 (height g) <=? target_height) && has_video g
              = true) as Hgok.
      { rewrite Hgh, Hgv. simpl.
        apply andb_true_iff; split; [|done].
        apply andb_true_iff; split;
          [by apply negb_true_iff, Z.eqb_neq|by apply Z.leb_le]. }
      apply elem_of_app in Hg as [Hg|Hg].
      { specialize (Hpre g Hg Hgok). rewrite Hgh in Hpre. simpl in Hpre. lia. }
      apply elem_of_cons in Hg as [->|Hg]; [by simplify_eq|].
      specialize (Hpost g Hg Hgok). by rewrite Hgh in Hpost.
    + intros g Hg Hgv Hgh.
      assert (negb (default 0 (height g) =? 0)
              && (default 0 (height g) <=? target_height) && has_video g
              = true) as Hgok.
      { rewrite Hgh, Hgv. simpl.
        apply andb_true_iff; split; [|done].
        apply andb_true_iff; split;
          [by apply negb_true_iff, Z.eqb_neq|by apply Z.leb_le]. }
      specialize (Hpre g Hg Hgok). rewrite Hgh in Hpre. simpl in Hpre. lia.
  - intros g k Hg Hgv Hgh Hk Hkt. specialize (Hloop g Hg).
    rewrite Hgh, Hgv in Hloop. simpl in Hloop.
    apply andb_false_iff in Hloop as [Hloop|]; [|done].
    apply andb_false_iff in Hloop as [Hloop|Hloop].
    + apply negb_false_iff, Z.eqb_eq in Hloop. done.
    + apply Z.leb_gt in Hloop. lia.
Qed.

(** ** The audio loop and the reported size *)




(** ** Empty format lists *)

(** C9.  When the metadata of a video carries no format (the key is absent
    or the list is empty), [get_video_info] of either script raises: the
    [ValueError] "No formats available for this video", rewrapped by the
    enclosing handler.  It never returns a result. *)
Theorem no_formats_available (w : world) (url resolution : string)
  (target_height : Z) (info : Info.t) :
  int (drop_last resolution) = Ok target_height →
  extract_info w url false = Ok (Some info) →
  default [] (Info.formats info) = [] →
  Ytd.get_video_info w url resolution
  = Raise (Exn Exception
             "Failed to get video info: No formats available for this video")
  ∧ Ytdp.get_video_info w url resolution false
    = Raise (Exn Exception
               "Failed to get info: No formats available for this video").
Proof.
  intros Hint Hinfo Hformats.
  unfold Ytd.get_video_info, Ytdp.get_video_info.
  rewrite Hint, Hinfo. simpl. unfold Ytd.select, Ytdp.select.
  by rewrite Hformats.
Qed.

Lemma no_formats_available_witness :
  Ytd.get_video_info (Examples.serving []) "https://v/1" "720p"
  = Raise (Exn Exception
             "Failed to get video info: No formats available for this video")
  ∧ Ytdp.get_video_info (Examples.serving []) "https://v/1" "720p" false
    = Raise (Exn Exception
               "Failed to get info: No formats available for this video").
Proof.
  apply (no_formats_available (Examples.serving []) "https://v/1" "720p"
           720 (Examples.info_of [])); reflexivity.
Defined.

(** ** When no video format is found *)



Lemma elem_of_available_heights (formats : list format_dict) (h : Z) :
  h ∈ available_heights formats
  ↔ h ≠ 0 ∧ ∃ f, f ∈ formats ∧ height f = Some h.
Proof.
  unfold available_heights.
  rewrite elem_of_sorted_set, list_elem_of_fmap. split.
  - intros (f & -> & Hf). apply list_elem_of_filter in Hf as [Hh Hf].
    unfold truthy in Hh. destruct (height f) as [k|] eqn:Hk; [|done].
    apply negb_true_iff, Z.eqb_neq in Hh. eauto.
  - intros (Hh & f & Hf & Hk). exists f. rewrite Hk. split; [done|].
    apply list_elem_of_filter. split; [|done].
    unfold truthy. rewrite Hk. by apply negb_true_iff, Z.eqb_neq.
Qed.



(** What [ytdp.py] does once the formats and the heights are not empty: it
    settles on the closest height and then either returns, when a
    video-capable format has exactly that height, or fails on the missing
    format. *)
Lemma ytdp_select_outcome (target_height : Z) (info : Info.t) :
  let formats := default [] (Info.formats info) in
  available_heights formats ≠ [] →
  ∃ chosen,
    Ytdp.find_closest_resolution (available_heights formats) target_height
    = Some chosen
    ∧ match Ytdp.best_video_format chosen formats with
      | Some video =>
          ∃ r, Ytdp.select target_height info = Ok r
               ∧ Ytdp.resolution r = pretty chosen +:+ "p"
               ∧ Ytdp.size r =
                   default 0 (filesize video) +
                   match best_audio_format formats with
                   | Some audio => default 0 (filesize audio)
                   | None => 0
                   end
      | None =>
          Ytdp.select target_height info
          = Raise (Exn AttributeError
                     "'NoneType' object has no attribute 'get'")
      end.
Proof.
  intros formats Hheights.
  destruct (find_closest_resolution_spec _ target_height Hheights)
    as (chosen & Hchosen & _).
  exists chosen. split; [done|].
  unfold Ytdp.select. fold formats.
  destruct formats as [|f fs] eqn:Hfs; [done|].
  destruct (available_heights (f :: fs)) as [|a hs] eqn:Ha; [done|].
  rewrite Hchosen.
  destruct (Ytdp.best_video_format chosen (f :: fs)) as [video|]; [|done].
  eexists. split; [reflexivity|]. done.
Qed.

(** C1 (defect of the code).  The format list [storyboard 180; video 360]
    is not empty and has a video-capable format of height 360.  With target
    240 the closest-fit rule of [ytdp.py] chooses 180, the greatest
    available height [<= 240], because the heights are collected from all
    formats, video-capable or not; no video-capable format has that height,
    so [get_video_info] does not return a chosen height: it fails with the
    [AttributeError] of a method call on [None]. *)
Theorem ytdp_closest_fit_fails_on_storyboard :
  let formats := Examples.storyboard_below in
  (∃ f h, f ∈ formats ∧ has_video f = true ∧ height f = Some h ∧ h ≠ 0)
  ∧ available_heights formats = [180; 360]
  ∧ Ytdp.find_closest_resolution (available_heights formats) 240 = Some 180
  ∧ Ytdp.get_video_info (Examples.serving formats) "https://v/1" "240p" false
    = Raise (Exn Exception
               "Failed to get info: 'NoneType' object has no attribute 'get'").
Proof.
  split_and!; [|reflexivity..].
  exists (Examples.video 360 40000000), 360. split_and!; [|done..].
  apply list_elem_of_further, list_elem_of_here.
Qed.

(** C3 (defect of the code).  On [storyboard 90; storyboard 180], a
    non-empty list without any video-capable format, and target 240:
    [ytd.py] raises with a message that lists the heights 90 and 180 but
    proposes 90, not 180, the greatest height [<= 240]; [ytdp.py] raises the
    [AttributeError] of a method call on [None], with no height in its
    message. *)
Theorem no_video_format_diagnostics_on_storyboards :
  let formats := Examples.storyboards_only in
  (∀ f, f ∈ formats → ¬ (truthy (height f) = true ∧ has_video f = true))
  ∧ Ytd.get_video_info (Examples.serving formats) "https://v/1" "240p"
    = Raise (Exn Exception
        ("Failed to get video info: No format found for 240p. "
         +:+ "Available resolutions: [90, 180]. Try 90p"))
  ∧ Ytdp.get_video_info (Examples.serving formats) "https://v/1" "240p" false
    = Raise (Exn Exception
               "Failed to get info: 'NoneType' object has no attribute 'get'").
Proof.
  split_and!; [|reflexivity..].
  intros f Hf [_ Hvideo].
  repeat (apply elem_of_cons in Hf as [->|Hf]; [done|]).
  by apply elem_of_nil in Hf.
Qed.

(** ** Playlist aggregation *)

(** The call the playlist loop makes is [get_video_info] with the flag
    off. *)
Lemma get_single_info_eq (w : world) (url resolution : string) :
  Ytdp.get_video_info w url resolution false
  = Ytdp.Video <$> Ytdp.get_single_info w url resolution.
Proof.
  unfold Ytdp.get_video_info, Ytdp.get_single_info.
  destruct (int (drop_last resolution)) as [target|]; simpl; [|done].
  destruct (extract_info w url false) as [[info|]|]; simpl; [|done..].
  by destruct (Ytdp.select target info).
Qed.

Section Playlist.

Import PlaylistSpec.

Context (w : world) (resolution : string).






End Playlist.







(** ** The confirmation gate *)

Section ConfirmLoop.

Import Gate.

Lemma extend_extend (c : console) (es1 es2 : list event) :
  extend (extend c es1) es2 = extend c (es1 ++ es2).
Proof. unfold extend. simpl. by rewrite app_assoc. Qed.

Lemma extend_nil (c : console) : extend c [] = c.
Proof. destruct c. unfold extend. simpl. by rewrite app_nil_r. Qed.

Lemma print_run (d : display) (c : console) :
  print d c = (Ok (), extend c [Print d]).
Proof. reflexivity. Qed.

Lemma bind_run {A B} (m : io A) (f : A → io B) (c c' : console) (a : A) :
  m c = (Ok a, c') → (m ≫= f) c = f a c'.
Proof. intros Hm. unfold mbind, io_bind. by rewrite Hm. Qed.

(** The recursion on the lines left is the loop of the source: ask, read
    and lower-case a line, stop on ['y'] or ['n'], otherwise print the hint
    and start over. *)
Lemma confirm_unfold (c : console) :
  confirm c
  = (line ← input ask;
     let response := lower line in
     if bool_decide (response ∈ ["y"; "n"]) then mret response
     else print (Text hint);; confirm) c.
Proof.
  destruct c as [[|line rest] shown]; [reflexivity|].
  unfold confirm, mbind, io_bind, input. simpl.
  destruct (bool_decide (lower line ∈ ["y"; "n"])); [reflexivity|].
  unfold print, emit, confirm. simpl. by rewrite <-app_assoc.
Qed.

(** An undecided line costs one question and one hint, and the loop goes
    on with the next line. *)
Lemma confirm_loop_undecided (line : string) (rest : list string)
  (shown : list event) :
  undecided line →
  confirm_loop (line :: rest) shown
  = confirm_loop rest (shown ++ reprompts 1).
Proof.
  unfold undecided. intros Hline. simpl.
  by rewrite bool_decide_eq_false_2.
Qed.

Lemma reprompts_S (n : nat) :
  reprompts (S n) = reprompts 1 ++ reprompts n.
Proof. unfold reprompts. simpl. done. Qed.

(** A whole run of the loop: it skips the undecided lines, each at the
    cost of a question and a hint, and stops on the first line that
    lower-cases to ['y'] or ['n'], giving back that lower-cased answer; when
    no line decides, it ends in [EOFError] after one last question. *)
Lemma confirm_loop_spec (lines : list string) (shown : list event) :
  match confirm_loop lines shown with
  | (Ok response, c) =>
      ∃ pre line post,
        lines = pre ++ line :: post
        ∧ Forall undecided pre
        ∧ response = lower line ∧ (response = "y" ∨ response = "n")
        ∧ c = {| stdin := post;
                 trace := shown ++ reprompts (length pre) ++ [Prompt ask] |}
  | (Raise e, c) =>
      e = Exn EOFError "EOF when reading a line"
      ∧ Forall undecided lines
      ∧ c = {| stdin := [];
               trace := shown ++ reprompts (length lines) ++ [Prompt ask] |}
  end.
Proof.
  revert shown. induction lines as [|line rest IH]; intros shown; simpl.
  - split_and!; [done|constructor|done].
  - destruct (decide (lower line ∈ ["y"; "n"])) as [Hdec|Hund].
    + rewrite bool_decide_eq_true_2 by done.
      exists [], line, rest. split_and!; [done|constructor|done| |done].
      apply elem_of_cons in Hdec as [->|Hdec]; [by left|].
      apply list_elem_of_singleton in Hdec as ->. by right.
    + rewrite bool_decide_eq_false_2 by done.
      specialize (IH (shown ++ [Prompt ask; Print (Text hint)])).
      destruct (confirm_loop rest _) as [[response|e] c].
      * destruct IH as (pre & l & post & -> & Hpre & -> & Hyn & ->).
        exists (line :: pre), l, post.
        split_and!; [done|by constructor|done..|].
        cbn [length]. rewrite reprompts_S. by rewrite <-!app_assoc.
      * destruct IH as (-> & Hrest & ->).
        split_and!; [done|by constructor|].
        unfold reprompts. by rewrite <-app_assoc.
Qed.

Lemma reprompts_quiet (n : nat) :
  Forall (fun e => outward e = false) (reprompts n).
Proof.
  induction n as [|n IH]; [constructor|].
  rewrite reprompts_S. apply Forall_app. split; [|done].
  by repeat constructor.
Qed.

(** What [ytdp.py] shows before the question is terminal output only. *)
Lemma show_run (i : Ytdp.info) (c : console) :
  ∃ shown,
    Ytdp.show i c = (Ok (), extend c shown)
    ∧ Forall (fun e => outward e = false) shown.
Proof.
  assert (∀ (skipped : list Ytdp.Skipped.t) c,
    ∃ shown,
      foldr (fun vid rest =>
               print (Text ("- " +:+ Ytdp.Skipped.title vid +:+ ": "
                            +:+ Ytdp.Skipped.reason vid));; rest)
            (mret ()) skipped c
      = (Ok (), extend c shown)
      ∧ Forall (fun e => outward e = false) shown) as Hlist.
  { clear c. induction skipped as [|vid skipped IH]; intros c.
    - exists []. by rewrite extend_nil.
    - cbn [foldr]. erewrite bind_run by apply print_run.
      destruct (IH (extend c [Print (Text ("- " +:+ Ytdp.Skipped.title vid
                    +:+ ": " +:+ Ytdp.Skipped.reason vid))]))
        as (shown & -> & Hshown).
      eexists. rewrite extend_extend. split; [done|].
      by constructor. }
  destruct i as [v|p]; unfold Ytdp.show.
  - repeat (erewrite bind_run by apply print_run; rewrite ?extend_extend).
    destruct (0 <? Ytdp.size v); rewrite print_run, extend_extend;
      eexists; (split; [done|]); by repeat constructor.
  - repeat (erewrite bind_run by apply print_run; rewrite ?extend_extend).
    set (size_line :=
      if 0 <? Ytdp.Playlist.total_size p
      then print (Megabytes "Estimated total size"
                    (Ytdp.Playlist.total_size p))
      else print (Text "Estimated total size: Unknown")).
    assert (∃ d, ∀ c, size_line c = (Ok (), extend c [Print d])) as [d Hd].
    { unfold size_line. destruct (0 <? _); eexists; intros; apply print_run. }
    erewrite bind_run by apply Hd. rewrite extend_extend.
    destruct (Ytdp.Playlist.skipped_videos p) as [|vid skipped].
    + eexists. split; [done|]. by repeat constructor.
    + erewrite bind_run by apply print_run. rewrite extend_extend.
      edestruct Hlist as (shown & -> & Hshown).
      rewrite extend_extend. eexists. split; [done|].
      repeat (constructor; [done|]). done.
Qed.

End ConfirmLoop.

Section Runs.

Import Gate.

Context (w : world) (url output_path resolution : string).

Lemma proceed_after (opts : ydl_opts) (completed : string)
  (k_no k_yes : io unit) (c : console) :
  (∀ c, k_no c
        = (Ok (), extend c [Print (Text "Download cancelled by user.")])) →
  (∀ c, k_yes c
        = (emit (Mkdir output_path);;
           lift (mkdir w output_path);;
           emit starting;;
           emit (Download opts url);;
           lift (download w opts url);;
           emit (Print (Text completed))) c) →
  reraise_io "Download failed: "
    (response ← confirm; if String.eqb response "n" then k_no else k_yes) c
  = proceed w opts url output_path completed (confirm c).
Proof.
  intros Hno Hyes. unfold reraise_io, mbind, io_bind, proceed.
  destruct (confirm c) as [[response|e] c']; [|done].
  destruct (String.eqb response "n").
  { by rewrite Hno. }
  rewrite Hyes. unfold mbind, io_bind, emit, lift, extend, starting. simpl.
  destruct (mkdir w output_path) as [[]|e]; simpl; [|done].
  destruct (download w opts url) as [[]|e]; simpl;
    by rewrite <-?app_assoc.
Qed.

(** [ytd.py]: when the metadata cannot be had, nothing is shown or asked;
    otherwise the summary is shown, which is terminal output only, and the
    run continues with the confirmation loop and what follows it. *)
Lemma ytd_download_video_run (c : console) :
  match Ytd.get_video_info w url resolution with
  | Raise e =>
      Ytd.download_video w url output_path resolution c = (Raise (wrap e), c)
  | Ok video_info =>
      ∃ shown,
        Forall (fun e => outward e = false) shown
        ∧ Ytd.download_video w url output_path resolution c
          = proceed w (Ytd.download_opts w output_path resolution) url
              output_path
              (nl +:+ "Download completed! File saved in: " +:+ output_path)
              (confirm_loop (stdin c) (trace c ++ shown))
  end.
Proof.
  unfold Ytd.download_video.
  destruct (Ytd.get_video_info w url resolution) as [vi|e]; [|done].
  set (size_line :=
    if 0 <? Ytd.size vi
    then print (Megabytes "Estimated size" (Ytd.size vi))
    else print (Text "Estimated size: Unknown")).
  assert (∃ d, ∀ c, size_line c = (Ok (), extend c [Print d])) as [d Hd].
  { unfold size_line. destruct (0 <? _); eexists; intros; apply print_run. }
  eexists
    [Print (Text (nl +:+ "Video Information:"));
     Print (Text ("Title: " +:+ Ytd.title vi));
     Print (Text ("Resolution: " +:+ Ytd.resolution vi));
     Print (Minutes "Duration"
              (if 0 <? Ytd.duration vi then Ytd.duration vi else 0));
     Print d].
  split; [by repeat constructor|].
  unfold reraise_io at 1.
  change (confirm_loop (stdin c) ?t)
    with (confirm {| stdin := stdin c; trace := t |}).
  rewrite <-(proceed_after _ _
    (print (Text "Download cancelled by user."))
    (emit (Mkdir output_path);;
     lift (mkdir w output_path);;
     emit starting;;
     emit (Download (Ytd.download_opts w output_path resolution) url);;
     lift (download w (Ytd.download_opts w output_path resolution) url);;
     emit (Print (Text (nl +:+ "Download completed! File saved in: "
                        +:+ output_path)))) _ (fun _ => eq_refl)
    (fun _ => eq_refl)).
  unfold reraise_io, lift. unfold mbind at 1, io_bind at 1.
  repeat (erewrite bind_run by apply print_run; rewrite ?extend_extend).
  erewrite bind_run by apply Hd. rewrite extend_extend.
  reflexivity.
Qed.

(** [ytdp.py]: the same, with its own summary and options. *)
Lemma ytdp_download_video_run (c : console) :
  match Ytdp.get_video_info w url resolution (Ytdp.is_playlist url) with
  | Raise e =>
      Ytdp.download_video w url output_path resolution c
      = (Raise (wrap e), c)
  | Ok info =>
      ∃ shown,
        Forall (fun e => outward e = false) shown
        ∧ Ytdp.show info c = (Ok (), extend c shown)
        ∧ Ytdp.download_video w url output_path resolution c
          = proceed w (Ytdp.download_opts w output_path) url output_path
              (nl +:+ "Download completed! Files saved in: " +:+ output_path)
              (confirm_loop (stdin c) (trace c ++ shown))
  end.
Proof.
  unfold Ytdp.download_video. cbv zeta.
  destruct (Ytdp.get_video_info w url resolution (Ytdp.is_playlist url))
    as [info|e]; [|done].
  destruct (show_run info c) as (shown & Hshow & Hquiet).
  exists shown. split; [done|]. split; [done|].
  change (confirm_loop (stdin c) ?t)
    with (confirm {| stdin := stdin c; trace := t |}).
  rewrite <-(proceed_after _ _
    (print (Text "Download cancelled by user."))
    (emit (Mkdir output_path);;
     lift (mkdir w output_path);;
     emit starting;;
     emit (Download (Ytdp.download_opts w output_path) url);;
     lift (download w (Ytdp.download_opts w output_path) url);;
     emit (Print (Text (nl +:+ "Download completed! Files saved in: "
                        +:+ output_path)))) _ (fun _ => eq_refl)
    (fun _ => eq_refl)).
  unfold reraise_io, lift. unfold mbind at 1, io_bind at 1.
  erewrite bind_run by apply Hshow.
  reflexivity.
Qed.

End Runs.

Section Gated.

Import Gate.

Lemma confirm_loop_app (pre rest : list string) (shown : list event) :
  Forall undecided pre →
  confirm_loop (pre ++ rest) shown
  = confirm_loop rest (shown ++ reprompts (length pre)).
Proof.
  intros Hpre. revert shown.
  induction Hpre as [|line pre Hline Hpre IH]; intros shown.
  - simpl. by rewrite app_nil_r.
  - rewrite <-app_comm_cons, confirm_loop_undecided by done.
    rewrite IH. cbn [length].
    by rewrite (reprompts_S (length pre)), app_assoc.
Qed.

Lemma confirm_loop_decided (line : string) (post : list string)
  (shown : list event) :
  lower line = "y" ∨ lower line = "n" →
  confirm_loop (line :: post) shown
  = (Ok (lower line), {| stdin := post; trace := shown ++ [Prompt ask] |}).
Proof.
  intros Hline. simpl. rewrite bool_decide_eq_true_2; [done|].
  destruct Hline as [-> | ->];
    [apply list_elem_of_here|apply list_elem_of_further, list_elem_of_here].
Qed.

Lemma quiet_no_download (events : list event) (o : ydl_opts) (u : string) :
  quiet events → Download o u ∉ events.
Proof.
  intros Hquiet Hin. eapply Forall_forall in Hquiet; [|exact Hin]. done.
Qed.

Lemma quiet_app (es1 es2 : list event) :
  quiet es1 → quiet es2 → quiet (es1 ++ es2).
Proof. intros. by apply Forall_app. Qed.

Context (w : world) (opts : ydl_opts) (url output_path completed : string).
Context (run : io unit).
Hypothesis run_eq : ∀ c,
  ∃ shown, quiet shown
    ∧ run c = proceed w opts url output_path completed
                (confirm_loop (stdin c) (trace c ++ shown)).

(** [proceed] only adds events, and a download among them means the
    answer was not ['n']; the download is the one of [opts] and [url]. *)
Lemma proceed_trace (answer : result string * console) :
  ∃ extra,
    (proceed w opts url output_path completed answer).2
    = extend answer.2 extra
    ∧ ∀ o u, Download o u ∈ extra →
        ∃ response, answer.1 = Ok response ∧ response ≠ "n"
                    ∧ o = opts ∧ u = url.
Proof.
  destruct answer as [[response|e] c]; simpl.
  - destruct (String.eqb_spec response "n") as [->|Hne].
    + eexists. split; [reflexivity|]. intros o u Hin.
      apply list_elem_of_singleton in Hin. done.
    + destruct (mkdir w output_path) as [[]|?];
        [destruct (download w opts url) as [[]|?]|];
        (eexists; split; [reflexivity|]); intros o u Hin;
        repeat (apply elem_of_cons in Hin as [Hin|Hin];
                [try done; simplify_eq; by eauto|]);
        by apply elem_of_nil in Hin.
  - exists []. rewrite extend_nil. split; [done|].
    intros o u Hin. by apply elem_of_nil in Hin.
Qed.

(** A run that shows terminal output, asks and then proceeds as [proceed]
    says is gated. *)
Lemma proceed_gated : gated w opts url output_path run.
Proof.
  split.
  - intros c pre line post Hlines Hpre Hline.
    destruct (run_eq c) as (shown & Hshown & ->).
    rewrite Hlines, confirm_loop_app, confirm_loop_decided by auto.
    rewrite Hline. unfold proceed, extend. simpl.
    exists (shown ++ reprompts (length pre)
            ++ [Prompt ask; Print (Text "Download cancelled by user.")]).
    split; [|by rewrite <-!app_assoc].
    apply quiet_app; [done|].
    apply quiet_app; [apply reprompts_quiet|by repeat constructor].
  - intros c pre line post Hlines Hpre Hline.
    destruct (run_eq c) as (shown & Hshown & ->).
    rewrite Hlines, confirm_loop_app, confirm_loop_decided by auto.
    rewrite Hline. unfold proceed. simpl.
    exists (shown ++ reprompts (length pre) ++ [Prompt ask]). split.
    { apply quiet_app; [done|].
      apply quiet_app; [apply reprompts_quiet|by repeat constructor]. }
    destruct (mkdir w output_path) as [[]|e].
    + destruct (download w opts url) as [[]|e]; unfold extend; simpl.
      * exists [Print (Text completed)].
        split; [by repeat constructor|]. split; [done|].
        by rewrite <-!app_assoc.
      * exists []. split; [constructor|]. split; [done|].
        by rewrite <-!app_assoc.
    + unfold extend. simpl. by rewrite <-!app_assoc.
  - intros c Hlines.
    destruct (run_eq c) as (shown & Hshown & ->).
    rewrite <-(app_nil_r (stdin c)), confirm_loop_app by done.
    simpl.
    exists (shown ++ reprompts (length (stdin c)) ++ [Prompt ask]).
    split; [|by rewrite <-!app_assoc].
    apply quiet_app; [done|].
    apply quiet_app; [apply reprompts_quiet|by repeat constructor].
  - intros c o u.
    destruct (run_eq c) as (shown & Hshown & ->).
    pose proof (confirm_loop_spec (stdin c) (trace c ++ shown)) as Hloop.
    destruct (proceed_trace (confirm_loop (stdin c) (trace c ++ shown)))
      as (extra & -> & Hextra).
    destruct (confirm_loop (stdin c) (trace c ++ shown))
      as [[response|e] c']; simpl in *.
    + destruct Hloop as (pre & line & post & Hlines & Hpre & -> & Hyn & ->).
      simpl. rewrite <-!app_assoc. intros Hin.
      apply elem_of_app in Hin as [Hin|Hin]; [by left|].
      apply elem_of_app in Hin as [Hin|Hin];
        [by apply quiet_no_download in Hin|].
      apply elem_of_app in Hin as [Hin|Hin];
        [by apply quiet_no_download in Hin; [|apply reprompts_quiet]|].
      apply elem_of_cons in Hin as [Hin|Hin]; [done|].
      destruct (Hextra o u Hin) as (r & Hr & Hno & -> & ->).
      right. exists pre, line, post. split_and!; [done..| |done|done].
      destruct Hyn as [Hy|Hn]; [done|]. simplify_eq.
    + destruct Hloop as (-> & Hlines & ->).
      simpl. rewrite <-!app_assoc. intros Hin.
      apply elem_of_app in Hin as [Hin|Hin]; [by left|].
      apply elem_of_app in Hin as [Hin|Hin];
        [by apply quiet_no_download in Hin|].
      apply elem_of_app in Hin as [Hin|Hin];
        [by apply quiet_no_download in Hin; [|apply reprompts_quiet]|].
      apply elem_of_cons in Hin as [Hin|Hin]; [done|].
      by destruct (Hextra o u Hin) as (r & Hr & _).
Qed.

End Gated.

(** Both scripts are gated once their metadata request has succeeded, and
    do nothing at all when it has failed. *)
Lemma ytd_gated (w : world) (url output_path resolution : string)
  (video_info : Ytd.video_info) :
  Ytd.get_video_info w url resolution = Ok video_info →
  Gate.gated w (Ytd.download_opts w output_path resolution) url output_path
    (Ytd.download_video w url output_path resolution).
Proof.
  intros Hvi. eapply proceed_gated. intros c.
  pose proof (ytd_download_video_run w url output_path resolution c) as Hrun.
  rewrite Hvi in Hrun. exact Hrun.
Qed.

Lemma ytdp_gated (w : world) (url output_path resolution : string)
  (info : Ytdp.info) :
  Ytdp.get_video_info w url resolution (Ytdp.is_playlist url) = Ok info →
  Gate.gated w (Ytdp.download_opts w output_path) url output_path
    (Ytdp.download_video w url output_path resolution).
Proof.
  intros Hi. eapply proceed_gated. intros c.
  pose proof (ytdp_download_video_run w url output_path resolution c) as Hrun.
  rewrite Hi in Hrun. destruct Hrun as (shown & Hquiet & _ & Hrun).
  by exists shown.
Qed.

Lemma ytd_download_video_fails (w : world)
  (url output_path resolution : string) (e : exn) (c : console) :
  Ytd.get_video_info w url resolution = Raise e →
  Ytd.download_video w url output_path resolution c
  = (Raise (Gate.wrap e), c).
Proof.
  intros He.
  pose proof (ytd_download_video_run w url output_path resolution c) as Hrun.
  by rewrite He in Hrun.
Qed.

Lemma ytdp_download_video_fails (w : world)
  (url output_path resolution : string) (e : exn) (c : console) :
  Ytdp.get_video_info w url resolution (Ytdp.is_playlist url) = Raise e →
  Ytdp.download_video w url output_path resolution c
  = (Raise (Gate.wrap e), c).
Proof.
  intros He.
  pose proof (ytdp_download_video_run w url output_path resolution c)
    as Hrun.
  by rewrite He in Hrun.
Qed.

(** The claim C7 as it is written fails: the line ["Y"] is neither ['y']
    nor ['n'], yet it does not make the script ask again; the download is
    called after a single question. *)
Lemma uppercase_answer_counterexample :
  "Y" ≠ "y" ∧ "Y" ≠ "n"
  ∧ confirm_loop ["Y"; "n"] []
    ≠ confirm_loop ["n"] [Prompt ask; Print (Text hint)]
  ∧ trace (Ytd.download_video (Examples.serving Examples.three_formats)
             "https://v/1" "out" "1080p"
             {| stdin := ["Y"; "n"]; trace := [] |}).2
    = [Print (Text (nl +:+ "Video Information:"));
       Print (Text "Title: Clip");
       Print (Text "Resolution: 1080p");
       Print (Minutes "Duration" 90);
       Print (Megabytes "Estimated size" 520000000);
       Prompt ask;
       Mkdir "out";
       Gate.starting;
       Download
         (Ytd.download_opts (Examples.serving Examples.three_formats)
            "out" "1080p") "https://v/1";
       Print (Text (nl +:+ "Download completed! File saved in: out"))].
Proof. split_and!; [done..|reflexivity]. Qed.

(** C7, amended.  In both scripts, once the metadata request has
    succeeded, the run of [download_video] is gated: the lines read are
    lower-cased before they are compared, so a line that lower-cases to
    ['n'] ends the run normally with no directory made and no download
    called; a line that lower-cases to ['y'] makes the directory and, when
    that succeeds, calls the download once; a download in the trace was
    always preceded by such a ['y'] line; when the lines run out the run
    fails and nothing left the terminal.  Any other line only adds one
    question and one hint to the terminal before the next line is read.
    When the metadata request fails nothing is asked and nothing happens. *)
Theorem confirmation_gate (w : world) (url output_path resolution : string) :
  (∀ video_info,
     Ytd.get_video_info w url resolution = Ok video_info →
     Gate.gated w (Ytd.download_opts w output_path resolution) url
       output_path (Ytd.download_video w url output_path resolution))
  ∧ (∀ info,
       Ytdp.get_video_info w url resolution (Ytdp.is_playlist url) = Ok info →
       Gate.gated w (Ytdp.download_opts w output_path) url output_path
         (Ytdp.download_video w url output_path resolution))
  ∧ (∀ line rest shown,
       Gate.undecided line →
       confirm_loop (line :: rest) shown
       = confirm_loop rest (shown ++ [Prompt ask; Print (Text hint)]))
  ∧ (∀ e c,
       Ytd.get_video_info w url resolution = Raise e →
       Ytd.download_video w url output_path resolution c
       = (Raise (Gate.wrap e), c))
  ∧ (∀ e c,
       Ytdp.get_video_info w url resolution (Ytdp.is_playlist url) = Raise e →
       Ytdp.download_video w url output_path resolution c
       = (Raise (Gate.wrap e), c)).
Proof.
  split_and!.
  - intros vi. apply ytd_gated.
  - intros i. apply ytdp_gated.
  - intros line rest shown Hline. by apply confirm_loop_undecided.
  - intros e c. apply ytd_download_video_fails.
  - intros e c. apply ytdp_download_video_fails.
Qed.

Lemma confirmation_gate_witness :
  ∃ shown,
    Gate.quiet shown
    ∧ Ytd.download_video (Examples.serving Examples.three_formats)
        "https://v/1" "out" "1080p" {| stdin := ["maybe"; "N"]; trace := [] |}
      = (Ok (), {| stdin := []; trace := shown |}).
Proof.
  destruct (confirmation_gate (Examples.serving Examples.three_formats)
              "https://v/1" "out" "1080p") as (Hytd & _).
  destruct (Gate.on_no _ _ _ _ _ (Hytd _ eq_refl)
              {| stdin := ["maybe"; "N"]; trace := [] |}
              ["maybe"] "N" [] eq_refl)
    as (shown & Hquiet & Hrun).
  - constructor; [|constructor].
    unfold Gate.undecided. change (lower "maybe") with "maybe". intros Hin.
    repeat (apply elem_of_cons in Hin as [Hin|Hin]; [discriminate|]).
    by apply elem_of_nil in Hin.
  - reflexivity.
  - exists shown. split; [exact Hquiet|exact Hrun].
Defined.

(** ** The format constraint of the download *)



(** ** Telling playlists from videos *)

Lemma append_cons (c : ascii) (s t : string) :
  String c s +:+ t = String c (s +:+ t).
Proof. reflexivity. Qed.

Lemma append_empty (t : string) : "" +:+ t = t.
Proof. reflexivity. Qed.

Lemma prefix_spec (needle s : string) :
  String.prefix needle s = true ↔ ∃ after, s = needle +:+ after.
Proof.
  revert s. induction needle as [|a needle IH]; intros s.
  - split; [by exists s|by destruct s].
  - destruct s as [|b s]; simpl.
    + split; [done|]. by intros (after & ?).
    + setoid_rewrite append_cons.
      destruct (Ascii.ascii_dec a b) as [->|Hab].
      * rewrite IH. split; intros (after & Hs); exists after; congruence.
      * split; [done|]. intros (after & Hs). congruence.
Qed.

(** [contains] is the substring test. *)
Lemma contains_spec (needle s : string) :
  contains needle s = true ↔ ∃ before after, s = before +:+ needle +:+ after.
Proof.
  induction s as [|c s IH]; cbn [contains].
  - rewrite orb_false_r, prefix_spec. split.
    + intros (after & Hs). by exists "", after.
    + intros (before & after & Hs). destruct before as [|c before].
      * by exists after.
      * by rewrite append_cons in Hs.
  - rewrite orb_true_iff, prefix_spec, IH. split.
    + intros [(after & Hs)|(before & after & Hs)].
      * by exists "", after.
      * exists (String c before), after. by rewrite append_cons, Hs.
    + intros (before & after & Hs). destruct before as [|c' before].
      * left. by exists after.
      * right. exists before, after. rewrite append_cons in Hs. congruence.
Qed.

(** The shape of what [get_video_info] returns follows its flag. *)
Lemma ytdp_get_video_info_shape (w : world) (url resolution : string)
  (flag : bool) (i : Ytdp.info) :
  Ytdp.get_video_info w url resolution flag = Ok i →
  ∃ target_height info,
    int (drop_last resolution) = Ok target_height
    ∧ extract_info w url flag = Ok (Some info)
    ∧ match i with
      | Ytdp.Playlist p =>
          flag = true ∧ Ytdp.aggregate w resolution info = Ok p
      | Ytdp.Video v =>
          flag = false ∧ Ytdp.select target_height info = Ok v
      end.
Proof.
  unfold Ytdp.get_video_info. intros Hret.
  destruct (int (drop_last resolution)) as [target|]; simpl in Hret; [|done].
  destruct (extract_info w url flag) as [[info|]|]; simpl in Hret; [|done..].
  exists target, info. split_and!; [done..|].
  destruct flag.
  - destruct (Ytdp.aggregate w resolution info); simpl in Hret; [|done].
    by simplify_eq.
  - destruct (Ytdp.select target info); simpl in Hret; [|done].
    by simplify_eq.
Qed.

(** C10.  [download_video] of [ytdp.py] asks [get_video_info] for a
    playlist exactly when the URL contains ["playlist"] or ["&list="]
    somewhere: the flag it passes is true if and only if one of the two is a
    substring of the URL, the metadata are requested flat and aggregated as
    a playlist when the flag is true and selected as one video when it is
    false, and what [download_video] shows and does next is determined by
    that result.  So the URL of a single video that merely contains
    ["playlist"], as ["https://www.youtube.com/watch?v=playlist-tips"], is
    treated as a playlist. *)
Theorem playlist_routing (w : world) (url output_path resolution : string) :
  (Ytdp.is_playlist url = true
   ↔ (∃ before after, url = before +:+ "playlist" +:+ after)
     ∨ (∃ before after, url = before +:+ "&list=" +:+ after))
  ∧ (∀ c,
       match Ytdp.get_video_info w url resolution (Ytdp.is_playlist url) with
       | Raise e =>
           Ytdp.download_video w url output_path resolution c
           = (Raise (Gate.wrap e), c)
       | Ok info =>
           (∃ target_height raw,
              int (drop_last resolution) = Ok target_height
              ∧ extract_info w url (Ytdp.is_playlist url) = Ok (Some raw)
              ∧ match info with
                | Ytdp.Playlist p =>
                    Ytdp.is_playlist url = true
                    ∧ Ytdp.aggregate w resolution raw = Ok p
                | Ytdp.Video v =>
                    Ytdp.is_playlist url = false
                    ∧ Ytdp.select target_height raw = Ok v
                end)
           ∧ ∃ shown,
               Ytdp.show info c = (Ok (), Gate.extend c shown)
               ∧ Ytdp.download_video w url output_path resolution c
                 = Gate.proceed w (Ytdp.download_opts w output_path) url
                     output_path
                     (nl +:+ "Download completed! Files saved in: "
                      +:+ output_path)
                     (confirm_loop (stdin c) (trace c ++ shown))
       end)
  ∧ Ytdp.is_playlist "https://www.youtube.com/watch?v=playlist-tips" = true.
Proof.
  split_and!.
  - unfold Ytdp.is_playlist. by rewrite orb_true_iff, !contains_spec.
  - intros c.
    pose proof (ytdp_download_video_run w url output_path resolution c)
      as Hrun.
    destruct (Ytdp.get_video_info w url resolution (Ytdp.is_playlist url))
      as [info|e] eqn:Hinfo; [|done].
    split; [by apply ytdp_get_video_info_shape|].
    destruct Hrun as (shown & _ & Hshow & Hrun). by exists shown.
  - reflexivity.
Qed.

(** * Further properties of the scripts *)

(** ** More on [find_closest_resolution] *)

(** X2.  The function gives [None] only for the empty list, and its answer
    depends on which heights are offered, not on their order or on how
    often each occurs. *)
Theorem find_closest_resolution_set (l : list Z) (target_height : Z) :
  (Ytdp.find_closest_resolution l target_height = None ↔ l = [])
  ∧ ∀ l', (∀ h, h ∈ l ↔ h ∈ l') →
          Ytdp.find_closest_resolution l target_height
          = Ytdp.find_closest_resolution l' target_height.
Proof.
  split.
  - split; [|by intros ->].
    intros Hnone. destruct l as [|a l]; [done|].
    destruct (find_closest_resolution_spec (a :: l) target_height)
      as (c & Hc & _); [done|congruence].
  - intros l' Hsame.
    destruct l as [|a l].
    { destruct l' as [|b l']; [done|].
      pose proof (proj2 (Hsame b) (list_elem_of_here _ _)) as Hb.
      by apply elem_of_nil in Hb. }
    destruct l' as [|b l'].
    { pose proof (proj1 (Hsame a) (list_elem_of_here _ _)) as Ha.
      by apply elem_of_nil in Ha. }
    destruct (find_closest_resolution_spec (a :: l) target_height)
      as (c & -> & Hc & Hbelow & Habove); [done|].
    destruct (find_closest_resolution_spec (b :: l') target_height)
      as (c' & -> & Hc' & Hbelow' & Habove'); [done|].
    f_equal.
    destruct (decide (Exists (fun h => h <= target_height) (a :: l)))
      as [Hex|Hnex].
    + apply Exists_exists in Hex as (h & Hh & Hle).
      destruct Hbelow as [Hct Hmax]; [by eauto|].
      destruct Hbelow' as [Hct' Hmax']; [exists h; by rewrite <-Hsame|].
      apply Hsame in Hc as Hc2. apply Hsame in Hc' as Hc'2.
      specialize (Hmax c' Hc'2 Hct'). specialize (Hmax' c Hc2 Hct). lia.
    + assert (∀ h, h ∈ a :: l → target_height < h) as Hall.
      { intros h Hh. destruct (decide (h <= target_height)); [|lia].
        destruct Hnex. apply Exists_exists. eauto. }
      specialize (Habove Hall).
      assert (∀ h, h ∈ b :: l' → target_height < h) as Hall'.
      { intros h Hh. apply Hall. by apply Hsame. }
      specialize (Habove' Hall').
      apply Hsame in Hc as Hc2. apply Hsame in Hc' as Hc'2.
      specialize (Habove c' Hc'2). specialize (Habove' c Hc2). lia.
Qed.

Lemma find_closest_resolution_set_witness :
  Ytdp.find_closest_resolution [720; 360; 720; 1080] 480
  = Ytdp.find_closest_resolution [360; 720; 1080] 480.
Proof.
  apply (find_closest_resolution_set [720; 360; 720; 1080] 480).
  intros h. rewrite !elem_of_cons, elem_of_nil. tauto.
Defined.

(** ** The selection of [ytdp.py] *)


(** Increasing order without repetitions: what [sorted(set(...))] gives. *)
Lemma insert_sorted_strict (x : Z) (l : list Z) :
  x ∉ l → StronglySorted Z.lt l → StronglySorted Z.lt (insert_sorted x l).
Proof.
  intros Hx Hl. induction Hl as [|z l Hl IH Hz]; simpl.
  - by repeat constructor.
  - apply not_elem_of_cons in Hx as [Hxz Hx].
    destruct (Z.leb_spec x z) as [Hle|Hgt].
    + constructor; [by constructor|].
      constructor; [lia|].
      eapply Forall_impl; [exact Hz|]. simpl. intros; lia.
    + constructor; [by apply IH|].
      apply Forall_forall. intros y Hy.
      apply elem_of_insert_sorted in Hy as [->|Hy]; [lia|].
      by eapply Forall_forall in Hz.
Qed.

Lemma sorted_set_strict (l : list Z) : StronglySorted Z.lt (sorted_set l).
Proof.
  unfold sorted_set, sorted.
  pose proof (NoDup_remove_dups l) as Hnd.
  induction Hnd as [|x k Hx Hnd IH]; simpl; [constructor|].
  apply insert_sorted_strict; [|done].
  fold (sorted k). by rewrite elem_of_sorted.
Qed.

(** X5.  When the selection of [ytdp.py] returns, the resolutions it lists are
    the labels of the distinct non-zero heights of the formats in strictly
    increasing order, and the resolution it reports is one of them: one at
    most the target, or else the least of all. *)
Theorem ytdp_reported_resolution_available (target_height : Z)
  (info : Info.t) (r : Ytdp.video_info) :
  Ytdp.select target_height info = Ok r →
  ∃ heights chosen,
    Ytdp.available_resolutions r = (fun h => pretty h +:+ "p") <$> heights
    ∧ StronglySorted Z.lt heights
    ∧ (∀ h, h ∈ heights
            ↔ h ≠ 0 ∧ ∃ f, f ∈ default [] (Info.formats info)
                           ∧ height f = Some h)
    ∧ chosen ∈ heights
    ∧ Ytdp.resolution r = pretty chosen +:+ "p"
    ∧ Ytdp.resolution r ∈ Ytdp.available_resolutions r
    ∧ (chosen <= target_height ∨ ∀ h, h ∈ heights → chosen <= h).
Proof.
  intros Hret.
  set (formats := default [] (Info.formats info)) in *.
  destruct (decide (available_heights formats = [])) as [Hnil|Hne].
  { unfold Ytdp.select in Hret. fold formats in Hret.
    destruct formats; [done|]. by rewrite Hnil in Hret. }
  destruct (ytdp_select_outcome target_height info Hne)
    as (chosen & Hchosen & Hout). fold formats in Hchosen, Hout.
  destruct (find_closest_resolution_spec _ target_height Hne)
    as (c & Hc & Hin & Hbelow & Habove).
  rewrite Hchosen in Hc. injection Hc as <-.
  destruct (Ytdp.best_video_format chosen formats) as [video|];
    [|congruence].
  destruct Hout as (r' & Hr' & Hres & _).
  rewrite Hret in Hr'. injection Hr' as <-.
  assert (Ytdp.available_resolutions r
          = (fun h => pretty h +:+ "p") <$> available_heights formats)
    as Hlist.
  { unfold Ytdp.select in Hret. fold formats in Hret.
    destruct formats as [|f fs]; [done|].
    destruct (available_heights (f :: fs)) as [|a hs] eqn:Ha; [done|].
    rewrite Hchosen in Hret.
    destruct (Ytdp.best_video_format chosen (f :: fs)); [|done].
    by simplify_eq. }
  exists (available_heights formats), chosen.
  split; [done|]. split; [apply sorted_set_strict|].
  split; [intros h; apply elem_of_available_heights|].
  split; [done|]. split; [done|]. split.
  - rewrite Hlist, Hres.
    by apply (list_elem_of_fmap_2 (fun h => pretty h +:+ "p")).
  - destruct (decide (Exists (fun h => h <= target_height)
                        (available_heights formats))) as [Hex|Hnex].
    + left. apply Exists_exists in Hex as (h & Hh & Hle).
      apply Hbelow. eauto.
    + right. apply Habove. intros h Hh.
      destruct (decide (h <= target_height)); [|lia].
      destruct Hnex. apply Exists_exists. eauto.
Qed.

Lemma ytdp_reported_resolution_available_witness :
  ∃ r, Ytdp.select 480 (Examples.info_of Examples.three_formats) = Ok r
       ∧ Ytdp.resolution r ∈ Ytdp.available_resolutions r.
Proof.
  eexists. split; [reflexivity|].
  destruct (ytdp_reported_resolution_available 480
              (Examples.info_of Examples.three_formats) _ eq_refl)
    as (heights & chosen & _ & _ & _ & _ & _ & Hin & _).
  exact Hin.
Defined.

(** ** The selection of [ytd.py] *)




(** ** What the functions raise *)

(** X8.  [get_video_info] of either script raises only two kinds of exception:
    the [ValueError] of [int] on a malformed resolution, which is the one
    [int] raised and does not depend on the collaborators, or an
    [Exception] whose text starts with the prefix of the script's
    handler. *)
Theorem get_video_info_raises (w : world) (url resolution : string)
  (flag : bool) (e : exn) :
  (Ytd.get_video_info w url resolution = Raise e →
   int (drop_last resolution) = Raise e ∧ class_of e = ValueError
   ∨ (∃ target_height, int (drop_last resolution) = Ok target_height)
     ∧ class_of e = Exception
     ∧ ∃ cause, str e = "Failed to get video info: " +:+ cause)
  ∧ (Ytdp.get_video_info w url resolution flag = Raise e →
     int (drop_last resolution) = Raise e ∧ class_of e = ValueError
     ∨ (∃ target_height, int (drop_last resolution) = Ok target_height)
       ∧ class_of e = Exception
       ∧ ∃ cause, str e = "Failed to get info: " +:+ cause).
Proof.
  assert (∀ s e, int s = Raise e → class_of e = ValueError) as Hint.
  { intros s e'. unfold int. destruct (int_literal _); [done|].
    intros. by simplify_eq. }
  assert (∀ A prefix (body : result A) e,
            reraise prefix body = Raise e →
            class_of e = Exception ∧ ∃ cause, str e = prefix +:+ cause)
    as Hre.
  { intros A prefix [a|e0] e'; simpl; [done|].
    intros. simplify_eq. eauto. }
  split; intros Hraise.
  - unfold Ytd.get_video_info in Hraise.
    destruct (int (drop_last resolution)) as [target|e0] eqn:Hparse;
      simpl in Hraise.
    + right. split; [eauto|]. by eapply Hre.
    + left. simplify_eq. eauto.
  - unfold Ytdp.get_video_info in Hraise.
    destruct (int (drop_last resolution)) as [target|e0] eqn:Hparse;
      simpl in Hraise.
    + right. split; [eauto|]. by eapply Hre.
    + left. simplify_eq. eauto.
Qed.

Lemma get_video_info_raises_witness :
  int (drop_last "HDp") = Raise (Exn ValueError
    "invalid literal for int() with base 10: 'HD'")
  ∧ class_of (Exn ValueError
                "invalid literal for int() with base 10: 'HD'") = ValueError
  ∨ (∃ target_height, int (drop_last "HDp") = Ok target_height)
    ∧ class_of (Exn ValueError
                  "invalid literal for int() with base 10: 'HD'") = Exception
    ∧ ∃ cause, str (Exn ValueError
                      "invalid literal for int() with base 10: 'HD'")
               = "Failed to get video info: " +:+ cause.
Proof.
  exact (proj1 (get_video_info_raises (Examples.serving [])
                  "https://v/1" "HDp" false _) eq_refl).
Defined.

(** X9.  [download_video] of either script raises nothing but an [Exception]
    whose text starts with ["Download failed: "], whatever went wrong:
    the resolution, the metadata, the end of the input, the directory or
    the download itself. *)
Theorem download_video_raises (w : world)
  (url output_path resolution : string) (c c' : console) (e : exn) :
  (Ytd.download_video w url output_path resolution c = (Raise e, c') →
   class_of e = Exception ∧ ∃ cause, str e = "Download failed: " +:+ cause)
  ∧ (Ytdp.download_video w url output_path resolution c = (Raise e, c') →
     class_of e = Exception ∧ ∃ cause, str e = "Download failed: " +:+ cause).
Proof.
  assert (∀ opts completed answer,
            (Gate.proceed w opts url output_path completed answer).1
            = Raise e →
            class_of e = Exception
            ∧ ∃ cause, str e = "Download failed: " +:+ cause) as Hproceed.
  { intros opts completed [[response|e0] c0]; simpl.
    - destruct (String.eqb response "n"); [done|].
      destruct (mkdir w output_path) as [[]|e1]; simpl.
      + destruct (download w opts url) as [[]|e2]; simpl; [done|].
        intros. simplify_eq. unfold Gate.wrap. simpl. eauto.
      + intros. simplify_eq. unfold Gate.wrap. simpl. eauto.
    - intros. simplify_eq. unfold Gate.wrap. simpl. eauto. }
  split; intros Hraise.
  - pose proof (ytd_download_video_run w url output_path resolution c)
      as Hrun.
    destruct (Ytd.get_video_info w url resolution) as [vi|e0].
    + destruct Hrun as (shown & _ & Hrun). rewrite Hrun in Hraise.
      eapply Hproceed. by rewrite Hraise.
    + rewrite Hrun in Hraise. simplify_eq. unfold Gate.wrap. simpl. eauto.
  - pose proof (ytdp_download_video_run w url output_path resolution c)
      as Hrun.
    destruct (Ytdp.get_video_info w url resolution (Ytdp.is_playlist url))
      as [i|e0].
    + destruct Hrun as (shown & _ & _ & Hrun). rewrite Hrun in Hraise.
      eapply Hproceed. by rewrite Hraise.
    + rewrite Hrun in Hraise. simplify_eq. unfold Gate.wrap. simpl. eauto.
Qed.

Lemma download_video_raises_witness :
  class_of (Exn Exception "Download failed: EOF when reading a line")
  = Exception
  ∧ ∃ cause, str (Exn Exception "Download failed: EOF when reading a line")
             = "Download failed: " +:+ cause.
Proof.
  exact (proj1 (download_video_raises
                  (Examples.serving Examples.three_formats)
                  "https://v/1" "out" "720p"
                  {| stdin := ["perhaps"]; trace := [] |} _ _) eq_refl).
Defined.

(** ** More on playlists *)

(** X10.  A playlist without entries (the key absent or the list empty) is an
    error, the [ValueError] "No videos found in playlist" rewrapped by the
    handler. *)
Theorem empty_playlist (w : world) (url resolution : string)
  (target_height : Z) (info : Info.t) :
  int (drop_last resolution) = Ok target_height →
  extract_info w url true = Ok (Some info) →
  default [] (Info.entries info) = [] →
  Ytdp.get_video_info w url resolution true
  = Raise (Exn Exception "Failed to get info: No videos found in playlist").
Proof.
  intros Hint Hinfo Hentries. unfold Ytdp.get_video_info.
  rewrite Hint, Hinfo. simpl. unfold Ytdp.aggregate. by rewrite Hentries.
Qed.

Lemma empty_playlist_witness :
  Ytdp.get_video_info (Examples.serving Examples.three_formats)
    "https://list" "720p" true
  = Raise (Exn Exception "Failed to get info: No videos found in playlist").
Proof.
  apply (empty_playlist (Examples.serving Examples.three_formats)
           "https://list" "720p" 720
           (Examples.info_of Examples.three_formats)); reflexivity.
Defined.




(** ** The last character of the resolution *)

(** X12.  Only [resolution[:-1]] is ever read: [ytdp.py] gives the same result
    for two resolutions that agree up to their last character, whatever
    that character is (["720p"], ["720i"] and ["7205"] are all 720). *)
Theorem ytdp_resolution_suffix_ignored (w : world)
  (url resolution resolution' : string) (flag : bool) :
  drop_last resolution = drop_last resolution' →
  Ytdp.get_video_info w url resolution flag
  = Ytdp.get_video_info w url resolution' flag.
Proof.
  intros Hsame.
  assert (∀ u, Ytdp.get_single_info w u resolution
               = Ytdp.get_single_info w u resolution') as Hsingle.
  { intros u. unfold Ytdp.get_single_info. by rewrite Hsame. }
  assert (∀ t entry, Ytdp.playlist_step w resolution t entry
                     = Ytdp.playlist_step w resolution' t entry) as Hstep.
  { intros t entry. unfold Ytdp.playlist_step.
    destruct entry as [entry|]; [|done].
    destruct (Entry.url entry) as [u|]; [|done].
    by rewrite Hsingle. }
  assert (∀ entries t, foldl (Ytdp.playlist_step w resolution) t entries
                       = foldl (Ytdp.playlist_step w resolution') t entries)
    as Hloop.
  { induction entries as [|entry entries IH]; intros t; simpl; [done|].
    by rewrite Hstep, IH. }
  unfold Ytdp.get_video_info, Ytdp.aggregate. rewrite Hsame.
  destruct (int (drop_last resolution')) as [target|]; simpl; [|done].
  destruct (extract_info w url flag) as [[info|]|]; simpl; [|done..].
  destruct flag; [|done].
  destruct (default [] (Info.entries info)); [done|]. by rewrite Hloop.
Qed.

Lemma ytdp_resolution_suffix_ignored_witness :
  Ytdp.get_video_info (Examples.serving Examples.three_formats)
    "https://v/1" "720p" false
  = Ytdp.get_video_info (Examples.serving Examples.three_formats)
      "https://v/1" "7205" false.
Proof.
  apply (ytdp_resolution_suffix_ignored
           (Examples.serving Examples.three_formats)
           "https://v/1" "720p" "7205" false).
  reflexivity.
Defined.

(** ** What is on the terminal before the question *)







(** ** The progress hooks *)

Section Split.

Import Hook.

Lemma split_not_nil (sep : ascii) (s : string) : split sep s ≠ [].
Proof.
  destruct s as [|c s]; simpl; [done|].
  destruct (Ascii.eqb c sep); [done|]. by destruct (split sep s).
Qed.

Lemma join_cons (sep piece : string) (pieces : list string) :
  pieces ≠ [] →
  join sep (piece :: pieces) = piece +:+ sep +:+ join sep pieces.
Proof. by destruct pieces. Qed.

Lemma join_cons_char (sep : string) (c : ascii) (piece : string)
  (pieces : list string) :
  join sep (String c piece :: pieces)
  = String c (join sep (piece :: pieces)).
Proof. by destruct pieces. Qed.

(** Splitting at a character and joining with it again gives the string
    back, and no piece contains the character. *)
Lemma join_split (sep : ascii) (s : string) :
  join (String sep "") (split sep s) = s
  ∧ Forall (fun piece => contains (String sep "") piece = false)
      (split sep s).
Proof.
  induction s as [|c s [IHjoin IHfree]]; simpl.
  - split; [done|]. by repeat constructor.
  - destruct (Ascii.eqb_spec c sep) as [->|Hne].
    + split.
      * rewrite join_cons by apply split_not_nil. simpl. by rewrite IHjoin.
      * by constructor.
    + pose proof (split_not_nil sep s) as Hnil.
      destruct (split sep s) as [|piece pieces]; [done|].
      split.
      * by rewrite join_cons_char, IHjoin.
      * inversion IHfree as [|? ? Hpiece Hpieces]; subst.
        constructor; [|done].
        cbn [contains]. rewrite Hpiece, orb_false_r.
        destruct piece as [|d piece]; simpl;
          destruct (Ascii.ascii_dec sep c); congruence.
Qed.

Lemma append_assoc (s1 s2 s3 : string) :
  (s1 +:+ s2) +:+ s3 = s1 +:+ s2 +:+ s3.
Proof.
  induction s1 as [|c s1 IH]; [done|]. by rewrite !append_cons, IH.
Qed.

Lemma append_empty_r (s : string) : s +:+ "" = s.
Proof. induction s as [|c s IH]; [done|]. by rewrite append_cons, IH. Qed.

(** A joined list is its last piece preceded by nothing, when it is the
    only piece, or by text that ends in the separator. *)
Lemma join_last (sep : string) (pieces : list string) :
  pieces ≠ [] →
  ∃ before,
    join sep pieces = before +:+ default "" (last pieces)
    ∧ (before = "" ∨ ∃ b, before = b +:+ sep).
Proof.
  induction pieces as [|piece pieces IH]; [done|]. intros _.
  destruct pieces as [|piece' pieces].
  - exists "". split; [done|by left].
  - destruct IH as (before & Hjoin & Hbefore); [done|].
    rewrite join_cons by done.
    change (last (piece :: piece' :: pieces)) with (last (piece' :: pieces)).
    rewrite Hjoin. exists (piece +:+ sep +:+ before). split.
    + by rewrite !append_assoc.
    + right. destruct Hbefore as [->|(b & ->)].
      * exists piece. by rewrite append_empty_r.
      * exists (piece +:+ sep +:+ b). by rewrite !append_assoc.
Qed.

(** The name a progress line carries: the part of the path after its last
    ['/'].  It contains no ['/'], and the path is this name preceded by
    nothing or by a directory part that ends in ['/']. *)
Lemma last_component_spec (path : string) :
  contains "/" (last_component path) = false
  ∧ ∃ directory,
      path = directory +:+ last_component path
      ∧ (directory = "" ∨ ∃ d, directory = d +:+ "/").
Proof.
  unfold last_component. destruct (join_split "/" path) as [Hjoin Hfree].
  split.
  - destruct (last (split "/" path)) as [piece|] eqn:Hlast; [|done].
    eapply Forall_forall in Hfree; [exact Hfree|].
    by eapply last_Some_elem_of.
  - destruct (join_last "/" (split "/" path) (split_not_nil "/" path))
      as (before & Hlast & Hbefore).
    exists before. split; [|done]. by rewrite <-Hlast.
Qed.

End Split.

(** X15.  The two hooks on one event.  Without the key [status] both fail on it;
    with a status other than ["downloading"] both print nothing.  While
    downloading, the total is [total_bytes] unless that is absent or 0, and
    then the estimate: with a positive total both print the percentage,
    [ytdp.py] with the file name; without one [ytd.py] prints nothing
    and [ytdp.py] prints the amount downloaded.  The file name is the
    part of [filename] after its last ['/']. *)
Theorem show_progress_compared (d : Hook.progress) :
  let downloaded := default 0 (Hook.downloaded_bytes d) in
  let speed := default 0 (Hook.speed d) in
  let total :=
    match Hook.total_bytes d with
    | Some t => if t =? 0 then default 0 (Hook.total_bytes_estimate d) else t
    | None => default 0 (Hook.total_bytes_estimate d)
    end in
  ∃ file directory,
    default "" (Hook.filename d) = directory +:+ file
    ∧ (directory = "" ∨ ∃ dir, directory = dir +:+ "/")
    ∧ contains "/" file = false
    ∧ match Hook.status d with
      | None =>
          Hook.ytd_show_progress d = Hook.KeyError "status"
          ∧ Hook.ytdp_show_progress d = Hook.KeyError "status"
      | Some status =>
          if decide (status = "downloading") then
            if decide (0 < total) then
              Hook.ytd_show_progress d
              = Hook.Prints (Hook.Percent None downloaded total speed)
              ∧ Hook.ytdp_show_progress d
                = Hook.Prints
                    (Hook.Percent (Some file) downloaded total speed)
            else
              Hook.ytd_show_progress d = Hook.Silent
              ∧ Hook.ytdp_show_progress d
                = Hook.Prints (Hook.Amount file downloaded speed)
          else
            Hook.ytd_show_progress d = Hook.Silent
            ∧ Hook.ytdp_show_progress d = Hook.Silent
      end.
Proof.
  cbv zeta.
  destruct (last_component_spec (default "" (Hook.filename d)))
    as (Hfree & directory & Hpath & Hdir).
  exists (Hook.last_component (default "" (Hook.filename d))), directory.
  split; [done|]. split; [done|]. split; [done|].
  unfold Hook.ytd_show_progress, Hook.ytdp_show_progress.
  destruct (Hook.status d) as [status|]; [|done].
  destruct (decide (status = "downloading")) as [->|Hne].
  - rewrite String.eqb_refl.
    assert (Hook.or_else (default 0 (Hook.total_bytes d))
              (default 0 (Hook.total_bytes_estimate d))
            = match Hook.total_bytes d with
              | Some t =>
                  if t =? 0 then default 0 (Hook.total_bytes_estimate d)
                  else t
              | None => default 0 (Hook.total_bytes_estimate d)
              end) as ->.
    { unfold Hook.or_else. by destruct (Hook.total_bytes d). }
    destruct (decide (0 < _)) as [Hpos|Hnpos].
    + apply Z.ltb_lt in Hpos. by rewrite Hpos.
    + apply Z.ltb_nlt in Hnpos. by rewrite Hnpos.
  - apply String.eqb_neq in Hne. by rewrite Hne.
Qed.

(** ** The command line *)

Section MainBlock.

Import Main.

(** X16.  The exit status is 1 exactly when fewer than two arguments follow the
    script name; then the usage text is all that happens: no line is read
    and nothing leaves the terminal.  In every other case the status is 0,
    also when [download_video] raised: the exception is caught and its text
    printed after ["Error occurred: "] as the last line. *)
Theorem main_exit_status (w : world) (argv : list string) (c : console) :
  ((ytd_main w argv c).1 = if (length argv <? 3)%nat then 1 else 0)
  ∧ ((ytdp_main w argv c).1 = if (length argv <? 3)%nat then 1 else 0)
  ∧ ((length argv < 3)%nat →
     ytd_main w argv c = (1, Gate.extend c ytd_usage)
     ∧ ytdp_main w argv c = (1, Gate.extend c ytdp_usage)
     ∧ Gate.quiet ytd_usage ∧ Gate.quiet ytdp_usage)
  ∧ (∀ prog video_url output_path rest,
       argv = prog :: video_url :: output_path :: rest →
       let resolution := default "1080p" (head rest) in
       (∀ e c',
          Ytd.download_video w video_url output_path resolution c
          = (Raise e, c') →
          ytd_main w argv c
          = (0, Gate.extend c'
                  [Print (Text ("Error occurred: " +:+ str e))]))
       ∧ (∀ e c',
            Ytdp.download_video w video_url output_path resolution c
            = (Raise e, c') →
            ytdp_main w argv c
            = (0, Gate.extend c'
                    [Print (Text ("Error occurred: " +:+ str e))]))
       ∧ (∀ c',
            Ytd.download_video w video_url output_path resolution c
            = (Ok (), c') →
            ytd_main w argv c = (0, c'))
       ∧ (∀ c',
            Ytdp.download_video w video_url output_path resolution c
            = (Ok (), c') →
            ytdp_main w argv c = (0, c'))).
Proof.
  assert (∀ usage dl,
            (run usage dl argv c).1
            = if (length argv <? 3)%nat then 1 else 0) as Hstatus.
  { intros usage dl. unfold run.
    destruct argv as [|prog [|u [|o rest]]]; try done.
    simpl. by destruct (dl u o _ c) as [[[]|e] c']. }
  split; [apply Hstatus|]. split; [apply Hstatus|]. split.
  - intros Hlen. unfold ytd_main, ytdp_main, run.
    destruct argv as [|prog [|u [|o rest]]]; simpl in Hlen; try lia.
    all: split; [done|]; split; [done|];
      split; unfold Gate.quiet; by repeat constructor.
  - intros prog u o rest -> resolution.
    assert (resolution = match rest with r :: _ => r | [] => "1080p" end)
      as Hres by (by destruct rest).
    unfold ytd_main, ytdp_main, run. rewrite <-Hres.
    split_and!; intros; by match goal with H : _ = _ |- _ => rewrite H end.
Qed.

Lemma main_exit_status_witness :
  ytd_main (Examples.serving Examples.three_formats)
    ["ytd.py"; "https://v/1"] {| stdin := ["y"]; trace := [] |}
  = (1, Gate.extend {| stdin := ["y"]; trace := [] |} ytd_usage).
Proof.
  destruct (main_exit_status (Examples.serving Examples.three_formats)
              ["ytd.py"; "https://v/1"] {| stdin := ["y"]; trace := [] |})
    as (_ & _ & Husage & _).
  destruct Husage as (Hytd & _); [simpl; lia|]. exact Hytd.
Defined.

(** X17.  A download started from the command line is for the first argument,
    into the second, and was confirmed by a line that lower-cases to
    ['y']; it needs at least two arguments.  With [ytd.py] its format
    constraint is built from the third argument without its last
    character, from ["1080p"] when there is no third argument; arguments
    after the third are ignored. *)
Theorem main_download (w : world) (argv lines : list string)
  (o : ydl_opts) (u : string) :
  (Download o u
   ∈ trace (ytd_main w argv {| stdin := lines; trace := [] |}).2 →
   ∃ prog video_url output_path rest pre line post,
     argv = prog :: video_url :: output_path :: rest
     ∧ u = video_url ∧ (outtmpl o).1 = output_path
     ∧ format o
       = "bestvideo[height<="
         +:+ drop_last (default "1080p" (head rest)) +:+ "]+bestaudio/best"
     ∧ lines = pre ++ line :: post ∧ Forall Gate.undecided pre
     ∧ lower line = "y")
  ∧ (Download o u
     ∈ trace (ytdp_main w argv {| stdin := lines; trace := [] |}).2 →
     ∃ prog video_url output_path rest pre line post,
       argv = prog :: video_url :: output_path :: rest
       ∧ u = video_url ∧ (outtmpl o).1 = output_path
       ∧ format o = "bestvideo[height<=144]+bestaudio/best"
       ∧ lines = pre ++ line :: post ∧ Forall Gate.undecided pre
       ∧ lower line = "y").
Proof.
  assert (∀ usage, Gate.quiet usage →
            Download o u ∉ trace (Gate.extend
                                    {| stdin := lines; trace := [] |}
                                    usage)) as Husage.
  { intros usage Hq. simpl. by apply quiet_no_download. }
  assert (Gate.quiet ytd_usage ∧ Gate.quiet ytdp_usage) as [Hq1 Hq2].
  { split; unfold Gate.quiet; by repeat constructor. }
  split; intros Hin.
  - unfold ytd_main, run in Hin.
    destruct argv as [|prog [|video_url [|output_path rest]]];
      try (by apply Husage in Hin).
    set (resolution := match rest with r :: _ => r | [] => "1080p" end) in *.
    assert (resolution = default "1080p" (head rest)) as Hres
      by (by destruct rest).
    set (c := {| stdin := lines; trace := [] |}) in *.
    assert (Download o u
            ∈ trace (Ytd.download_video w video_url output_path
                       resolution c).2) as Hdl.
    { destruct (Ytd.download_video w video_url output_path resolution c)
        as [[[]|e] c']; simpl in *; [done|].
      apply elem_of_app in Hin as [Hin|Hin]; [done|].
      by apply list_elem_of_singleton in Hin. }
    destruct (Ytd.get_video_info w video_url resolution) as [vi|e] eqn:Hinfo.
    + apply (Gate.never_before _ _ _ _ _
               (ytd_gated w video_url output_path resolution vi Hinfo))
        in Hdl as [Hdl|(pre & line & post & Hlines & Hpre & Hy & -> & ->)].
      { by apply elem_of_nil in Hdl. }
      exists prog, video_url, output_path, rest, pre, line, post.
      rewrite <-Hres. done.
    + rewrite (ytd_download_video_fails w video_url output_path resolution e)
        in Hdl by done.
      by apply elem_of_nil in Hdl.
  - unfold ytdp_main, run in Hin.
    destruct argv as [|prog [|video_url [|output_path rest]]];
      try (by apply Husage in Hin).
    set (resolution := match rest with r :: _ => r | [] => "1080p" end) in *.
    set (c := {| stdin := lines; trace := [] |}) in *.
    assert (Download o u
            ∈ trace (Ytdp.download_video w video_url output_path
                       resolution c).2) as Hdl.
    { destruct (Ytdp.download_video w video_url output_path resolution c)
        as [[[]|e] c']; simpl in *; [done|].
      apply elem_of_app in Hin as [Hin|Hin]; [done|].
      by apply list_elem_of_singleton in Hin. }
    destruct (Ytdp.get_video_info w video_url resolution
                (Ytdp.is_playlist video_url)) as [i|e] eqn:Hinfo.
    + apply (Gate.never_before _ _ _ _ _
               (ytdp_gated w video_url output_path resolution i Hinfo))
        in Hdl as [Hdl|(pre & line & post & Hlines & Hpre & Hy & -> & ->)].
      { by apply elem_of_nil in Hdl. }
      by exists prog, video_url, output_path, rest, pre, line, post.
    + rewrite (ytdp_download_video_fails w video_url output_path
                 resolution e) in Hdl by done.
      by apply elem_of_nil in Hdl.
Qed.

Lemma main_download_witness :
  ∃ o,
    Download o "https://v/1"
    ∈ trace (ytd_main (Examples.serving Examples.three_formats)
               ["ytd.py"; "https://v/1"; "out"]
               {| stdin := ["Y"]; trace := [] |}).2
    ∧ format o = "bestvideo[height<=1080]+bestaudio/best".
Proof.
  exists (Ytd.download_opts (Examples.serving Examples.three_formats)
            "out" "1080p").
  assert (Download
            (Ytd.download_opts (Examples.serving Examples.three_formats)
               "out" "1080p") "https://v/1"
          ∈ trace (ytd_main (Examples.serving Examples.three_formats)
                     ["ytd.py"; "https://v/1"; "out"]
                     {| stdin := ["Y"]; trace := [] |}).2) as Hin.
  { vm_compute. do 8 apply list_elem_of_further. apply list_elem_of_here. }
  split; [exact Hin|].
  destruct (proj1 (main_download (Examples.serving Examples.three_formats)
                     ["ytd.py"; "https://v/1"; "out"] ["Y"] _ _) Hin)
    as (prog & vu & op & rest & pre & line & post & Hargv & _ & _ & Hfmt & _).
  injection Hargv as _ _ _ <-. exact Hfmt.
Defined.

End MainBlock.

(** ** Reading back a resolution the scripts wrote *)

Section IntPretty.

Lemma digit_of_pretty_N_char (d : N) :
  (d < 10)%N → digit_of (pretty_N_char d) = Some (Z.of_N d).
Proof.
  intros Hd.
  assert (d = 0 ∨ d = 1 ∨ d = 2 ∨ d = 3 ∨ d = 4 ∨ d = 5 ∨ d = 6 ∨ d = 7
          ∨ d = 8 ∨ d = 9)%N as Hcases by lia.
  repeat (destruct Hcases as [->|Hcases]; [reflexivity|]).
  by subst.
Qed.

Lemma pretty_N_char_not_space (d : N) : is_space (pretty_N_char d) = false.
Proof. unfold pretty_N_char. by repeat case_match. Qed.

Lemma pretty_N_char_not_sign (d : N) :
  pretty_N_char d ≠ "-"%char ∧ pretty_N_char d ≠ "+"%char.
Proof. unfold pretty_N_char. by repeat case_match. Qed.

(** Reading the digits [pretty_N_go] writes in front of [s]. *)
Lemma digits_pretty_N_go (x : N) (s : string) (after_digit : bool) :
  (0 < x)%N →
  digits 0 after_digit (list_ascii_of_string (pretty_N_go x s))
  = digits (Z.of_N x) true (list_ascii_of_string s).
Proof.
  revert s after_digit.
  induction (N.lt_wf_0 x) as [x _ IH]. intros s after_digit Hx.
  rewrite pretty_N_go_step by done.
  assert (x `div` 10 < x)%N as Hlt by (apply N.div_lt; lia).
  assert (x `mod` 10 < 10)%N as Hmod by (apply N.mod_lt; lia).
  assert (Z.of_N x = 10 * Z.of_N (x `div` 10) + Z.of_N (x `mod` 10)) as Hx10.
  { rewrite (N.div_mod x 10) at 1 by lia. lia. }
  destruct (decide (0 < x `div` 10)%N) as [Hpos|Hzero].
  - rewrite IH by done. cbn [list_ascii_of_string digits].
    rewrite digit_of_pretty_N_char by done. by rewrite Hx10.
  - assert (x `div` 10 = 0)%N as Hdiv by lia.
    rewrite Hdiv, pretty_N_go_0. cbn [list_ascii_of_string digits].
    rewrite digit_of_pretty_N_char by done.
    rewrite Hx10, Hdiv. done.
Qed.

(** What [pretty_N_go] writes starts with a digit when [s] does or is
    empty, and has no white space when [s] has none. *)
Lemma pretty_N_go_no_space (x : N) (s : string) :
  Forall (fun c => is_space c = false) (list_ascii_of_string s) →
  Forall (fun c => is_space c = false)
    (list_ascii_of_string (pretty_N_go x s)).
Proof.
  revert s. induction (N.lt_wf_0 x) as [x _ IH]. intros s Hs.
  destruct (decide (0 < x)%N) as [Hx|Hx].
  - rewrite pretty_N_go_step by done. apply IH.
    + apply N.div_lt; lia.
    + constructor; [apply pretty_N_char_not_space|done].
  - assert (x = 0)%N as -> by lia. by rewrite pretty_N_go_0.
Qed.

Lemma pretty_N_go_head (x : N) (s : string) :
  (0 < x)%N →
  ∃ d rest,
    list_ascii_of_string (pretty_N_go x s) = pretty_N_char d :: rest.
Proof.
  revert s. induction (N.lt_wf_0 x) as [x _ IH]. intros s Hx.
  rewrite pretty_N_go_step by done.
  destruct (decide (0 < x `div` 10)%N) as [Hpos|Hzero].
  - apply IH; [apply N.div_lt; lia|done].
  - destruct (N.eq_0_gt_0_cases (x `div` 10)) as [->|?]; [|done].
    rewrite pretty_N_go_0. simpl. eauto.
Qed.

Lemma lstrip_no_space (l : list ascii) :
  Forall (fun c => is_space c = false) l → lstrip l = l.
Proof. destruct 1 as [|c l Hc _]; simpl; [done|]. by rewrite Hc. Qed.

Lemma strip_no_space (l : list ascii) :
  Forall (fun c => is_space c = false) l → strip l = l.
Proof.
  intros Hl. unfold strip. rewrite (lstrip_no_space l Hl).
  rewrite lstrip_no_space; [apply rev_involutive|].
  apply Forall_forall. intros c Hc.
  apply list_elem_of_In, in_rev, list_elem_of_In in Hc.
  by eapply Forall_forall in Hl.
Qed.

Lemma int_literal_pretty_pos (p : positive) :
  int_literal (list_ascii_of_string (pretty_N_go (N.pos p) ""))
  = Some (Z.pos p).
Proof.
  unfold int_literal.
  rewrite strip_no_space by (apply pretty_N_go_no_space; constructor).
  destruct (pretty_N_go_head (N.pos p) "") as (d & rest & Hhead); [lia|].
  pose proof (digits_pretty_N_go (N.pos p) "" false) as Hdigits.
  rewrite Hhead in Hdigits |- *.
  destruct (pretty_N_char_not_sign d) as [Hminus Hplus].
  assert (∀ (c : ascii) (A : Type) (a b other : A),
            c ≠ "-"%char → c ≠ "+"%char →
            match c with
            | "-"%char => a
            | "+"%char => b
            | _ => other
            end = other) as Hmatch.
  { intros c A a b other H1 H2.
    destruct c as [[] [] [] [] [] [] [] []]; try done. }
  transitivity (digits 0 false (pretty_N_char d :: rest)).
  - generalize dependent (pretty_N_char d). intros c _ Hm Hp.
    destruct c as [[] [] [] [] [] [] [] []]; try done.
  - rewrite Hdigits by lia. done.
Qed.

(** [int(str(z)) == z] *)
Lemma int_pretty (z : Z) : int (pretty z) = Ok z.
Proof.
  unfold int. destruct z as [|p|p].
  - reflexivity.
  - change (pretty (Z.pos p)) with (pretty_N_go (N.pos p) "").
    by rewrite int_literal_pretty_pos.
  - change (pretty (Z.neg p)) with ("-" +:+ pretty_N_go (N.pos p) "").
    change (list_ascii_of_string ("-" +:+ ?s))
      with ("-"%char :: list_ascii_of_string s).
    pose proof (int_literal_pretty_pos p) as Hpos.
    unfold int_literal in *.
    rewrite strip_no_space in Hpos
      by (apply pretty_N_go_no_space; constructor).
    rewrite strip_no_space.
    2:{ constructor; [done|]. apply pretty_N_go_no_space; constructor. }
    destruct (pretty_N_go_head (N.pos p) "") as (d & rest & Hhead); [lia|].
    rewrite Hhead in Hpos |- *.
    destruct (pretty_N_char_not_sign d) as [Hminus Hplus].
    assert (digits 0 false (pretty_N_char d :: rest) = Some (Z.pos p))
      as ->.
    { generalize dependent (pretty_N_char d). intros c Hc Hm Hp.
      destruct c as [[] [] [] [] [] [] [] []]; try done. }
    done.
Qed.

Lemma drop_last_label (s : string) (c : ascii) :
  drop_last (s +:+ String c "") = s.
Proof.
  induction s as [|a s IH]; [done|].
  rewrite append_cons. cbn [drop_last]. rewrite IH.
  destruct s; reflexivity.
Qed.

End IntPretty.

Section FirstMaximumIntro.

Context {A : Type} (ok : A → bool) (key : A → Z).
Context (step : option A → A → option A).
Hypothesis step_eq : ∀ best f,
  step best f =
  if ok f then
    match best with
    | None => Some f
    | Some b => if key b <? key f then Some f else best
    end
  else best.

Lemma keep_current (f : A) (post : list A) :
  (∀ g, g ∈ post → ok g = true → key g <= key f) →
  foldl step (Some f) post = Some f.
Proof.
  induction post as [|g post IH]; intros Hpost; simpl; [done|].
  rewrite step_eq. destruct (ok g) eqn:Hg.
  - assert (key g <= key f) as Hle
      by (apply Hpost; [apply list_elem_of_here|done]).
    apply Z.ltb_ge in Hle. rewrite Hle.
    apply IH. intros h Hh. apply Hpost. by apply list_elem_of_further.
  - apply IH. intros h Hh. apply Hpost. by apply list_elem_of_further.
Qed.

(** The converse of [first_maximum]: an element that passes the test,
    beats every passing element before it and is not beaten by any after
    it is the one the loop ends on. *)
Lemma first_maximum_intro (pre post : list A) (f : A) :
  ok f = true →
  (∀ g, g ∈ pre → ok g = true → key g < key f) →
  (∀ g, g ∈ post → ok g = true → key g <= key f) →
  foldl step None (pre ++ f :: post) = Some f.
Proof.
  intros Hf Hpre Hpost. rewrite foldl_app. cbn [foldl].
  pose proof (first_maximum ok key step step_eq pre) as Hloop.
  rewrite step_eq, Hf.
  destruct (foldl step None pre) as [b|].
  - destruct Hloop as (pre1 & post1 & Heq & Hb & _).
    assert (key b < key f) as Hlt.
    { apply Hpre; [|done]. rewrite Heq. apply elem_of_app. right.
      apply list_elem_of_here. }
    apply Z.ltb_lt in Hlt. rewrite Hlt. by apply keep_current.
  - by apply keep_current.
Qed.

End FirstMaximumIntro.

(** X18.  Asking [ytd.py] again with the resolution it reported gives the same
    answer: the label it writes is read back as the height it chose, and
    the choice for that height is the same format. *)
Theorem ytd_reported_resolution_stable (w : world) (url resolution : string)
  (r : Ytd.video_info) :
  Ytd.get_video_info w url resolution = Ok r →
  Ytd.get_video_info w url (Ytd.resolution r) = Ok r.
Proof.
  unfold Ytd.get_video_info. intros Hret.
  destruct (int (drop_last resolution)) as [target|]; simpl in Hret; [|done].
  destruct (extract_info w url false) as [[info|]|]; simpl in Hret; [|done..].
  unfold Ytd.select in Hret.
  set (formats := default [] (Info.formats info)) in *.
  destruct formats as [|f0 fs] eqn:Hformats; [done|].
  rewrite <-Hformats in Hret.
  pose proof (first_maximum
    (fun f => negb (default 0 (height f) =? 0)
              && (default 0 (height f) <=? target) && has_video f)
    (fun f => default 0 (height f))
    (Ytd.video_step target) (fun _ _ => eq_refl) formats) as Hloop.
  unfold Ytd.best_video_format in Hret.
  destruct (foldl (Ytd.video_step target) None formats) as [video|] eqn:Hbest.
  2:{ by destruct (Ytd.suggest_height _ _). }
  simpl in Hret. injection Hret as <-. cbn [Ytd.resolution].
  set (h := default 0 (height video)).
  unfold pretty at 1. rewrite drop_last_label.
  change (pretty_Z h) with (pretty h). rewrite int_pretty. simpl.
  unfold Ytd.select. fold formats. rewrite Hformats, <-Hformats.
  destruct Hloop as (pre & post & Hsplit & Hok & Hpre & Hpost).
  apply andb_true_iff in Hok as [Hok Hvideo].
  apply andb_true_iff in Hok as [Hnz Hle]. apply Z.leb_le in Hle.
  assert (Ytd.best_video_format h formats = Some video) as ->.
  { unfold Ytd.best_video_format. rewrite Hsplit.
    apply (first_maximum_intro
      (fun f => negb (default 0 (height f) =? 0)
                && (default 0 (height f) <=? h) && has_video f)
      (fun f => default 0 (height f))
      (Ytd.video_step h) (fun _ _ => eq_refl)).
    - rewrite Hnz, Hvideo. unfold h. by rewrite Z.leb_refl.
    - intros g Hg Hgok. apply Hpre; [done|].
      apply andb_true_iff in Hgok as [Hgok ->].
      apply andb_true_iff in Hgok as [-> Hgle]. apply Z.leb_le in Hgle.
      simpl. rewrite andb_true_r. apply Z.leb_le. unfold h in Hgle. lia.
    - intros g Hg Hgok. apply Hpost; [done|].
      apply andb_true_iff in Hgok as [Hgok ->].
      apply andb_true_iff in Hgok as [-> Hgle]. apply Z.leb_le in Hgle.
      simpl. rewrite andb_true_r. apply Z.leb_le. unfold h in Hgle. lia. }
  reflexivity.
Qed.

Lemma ytd_reported_resolution_stable_witness :
  Ytd.get_video_info (Examples.serving Examples.three_formats)
    "https://v/1" "720p"
  = Ok {| Ytd.title := "Clip"; Ytd.duration := 90; Ytd.size := 320000000;
          Ytd.resolution := "720p" |}.
Proof.
  apply (ytd_reported_resolution_stable
           (Examples.serving Examples.three_formats) "https://v/1" "900p"
           {| Ytd.title := "Clip"; Ytd.duration := 90;
              Ytd.size := 320000000; Ytd.resolution := "720p" |}).
  reflexivity.
Defined.

(** X19.  Asking [ytdp.py] again, for a single video, with the resolution
    it reported gives the same answer: the closest-fit rule maps a height
    that is available to itself. *)
Theorem ytdp_reported_resolution_stable (w : world)
  (url resolution : string) (v : Ytdp.video_info) :
  Ytdp.get_video_info w url resolution false = Ok (Ytdp.Video v) →
  Ytdp.get_video_info w url (Ytdp.resolution v) false = Ok (Ytdp.Video v).
Proof.
  intros Hret.
  destruct (ytdp_get_video_info_shape w url resolution false _ Hret)
    as (target & info & Hint & Hinfo & _ & Hselect).
  set (formats := default [] (Info.formats info)).
  destruct (decide (available_heights formats = [])) as [Hnil|Hne].
  { unfold Ytdp.select in Hselect. fold formats in Hselect.
    destruct formats; [done|]. by rewrite Hnil in Hselect. }
  destruct (find_closest_resolution_spec _ target Hne)
    as (chosen & Hchosen & Hin & _).
  assert (Ytdp.find_closest_resolution (available_heights formats) chosen
          = Some chosen) as Hagain.
  { destruct (find_closest_resolution_spec _ chosen Hne)
      as (c & Hc & Hcin & Hbelow & _).
    destruct Hbelow as [Hle Hmax]; [exists chosen; split; [done|lia]|].
    specialize (Hmax chosen Hin (Z.le_refl _)).
    rewrite Hc. f_equal. lia. }
  assert (∀ t, Ytdp.find_closest_resolution (available_heights formats) t
               = Some chosen →
               Ytdp.select t info
               = match Ytdp.best_video_format chosen formats with
                 | Some video =>
                     Ok {| Ytdp.title :=
                             default "Unknown Title" (Info.title info);
                           Ytdp.duration := default 0 (Info.duration info);
                           Ytdp.size :=
                             default 0 (filesize video)
                             + match best_audio_format formats with
                               | Some audio => default 0 (filesize audio)
                               | None => 0
                               end;
                           Ytdp.resolution := pretty chosen +:+ "p";
                           Ytdp.available_resolutions :=
                             (fun h => pretty h +:+ "p")
                             <$> available_heights formats |}
                 | None =>
                     Raise (Exn AttributeError
                              "'NoneType' object has no attribute 'get'")
                 end) as Hsel.
  { intros t Ht. unfold Ytdp.select. fold formats.
    destruct formats as [|f fs] eqn:Hf; [done|].
    destruct (available_heights (f :: fs)) as [|a hs] eqn:Ha; [done|].
    by rewrite Ht. }
  rewrite (Hsel target Hchosen) in Hselect.
  destruct (Ytdp.best_video_format chosen formats) as [video|] eqn:Hbest;
    [|done].
  injection Hselect as Hv. rewrite <-Hv at 1. cbn [Ytdp.resolution].
  unfold Ytdp.get_video_info.
  unfold pretty at 1. rewrite drop_last_label.
  change (pretty_Z chosen) with (pretty chosen). rewrite int_pretty, Hinfo.
  change (reraise "Failed to get info: "
            (Ytdp.Video <$> Ytdp.select chosen info) = Ok (Ytdp.Video v)).
  rewrite (Hsel chosen Hagain). simpl. by rewrite Hv.
Qed.

Lemma ytdp_reported_resolution_stable_witness :
  Ytdp.get_video_info (Examples.serving Examples.three_formats)
    "https://v/1" "720p" false
  = Ok (Ytdp.Video
          {| Ytdp.title := "Clip"; Ytdp.duration := 90;
             Ytdp.size := 320000000; Ytdp.resolution := "720p";
             Ytdp.available_resolutions := ["720p"; "1080p"] |}).
Proof.
  apply (ytdp_reported_resolution_stable
           (Examples.serving Examples.three_formats) "https://v/1" "900p"
           {| Ytdp.title := "Clip"; Ytdp.duration := 90;
              Ytdp.size := 320000000; Ytdp.resolution := "720p";
              Ytdp.available_resolutions := ["720p"; "1080p"] |}).
  reflexivity.
Defined.

(** ** The closest-fit rule, in full *)

(** X1.  [find_closest_resolution] returns [chosen] exactly when [chosen] is one
    of the heights and either it is at most the target and no height at
    most the target is greater, or every height is above the target and
    [chosen] is the least of them. *)
Theorem find_closest_resolution_iff (available_heights : list Z)
  (target_height chosen : Z) :
  Ytdp.find_closest_resolution available_heights target_height = Some chosen
  ↔ chosen ∈ available_heights
    ∧ (chosen <= target_height
       ∧ (∀ h, h ∈ available_heights → h <= target_height → h <= chosen)
       ∨ (∀ h, h ∈ available_heights → target_height < h)
         ∧ ∀ h, h ∈ available_heights → chosen <= h).
Proof.
  split.
  - intros Hret.
    assert (available_heights ≠ []) as Hne by (by intros ->).
    destruct (find_closest_resolution_spec _ target_height Hne)
      as (c & Hc & Hin & Hbelow & Habove).
    rewrite Hret in Hc. injection Hc as <-. split; [done|].
    destruct (decide (Exists (fun h => h <= target_height)
                        available_heights)) as [Hex|Hnex].
    + left. apply Exists_exists in Hex as (h & Hh & Hle).
      apply Hbelow. eauto.
    + assert (∀ h, h ∈ available_heights → target_height < h) as Hall.
      { intros h Hh. destruct (decide (h <= target_height)); [|lia].
        destruct Hnex. apply Exists_exists. eauto. }
      right. split; [done|]. by apply Habove.
  - intros [Hin Hcases].
    assert (available_heights ≠ []) as Hne.
    { intros ->. by apply elem_of_nil in Hin. }
    destruct (find_closest_resolution_spec _ target_height Hne)
      as (c & -> & Hcin & Hbelow & Habove).
    f_equal. destruct Hcases as [[Hle Hmax]|[Hall Hmin]].
    + destruct Hbelow as [Hcle Hcmax]; [by eauto|].
      specialize (Hmax c Hcin Hcle). specialize (Hcmax chosen Hin Hle). lia.
    + specialize (Habove Hall chosen Hin). specialize (Hmin c Hcin). lia.
Qed.


